(** * ShopVision: upload validation, product detection and overlay geometry

    A shallow embedding of the TypeScript sources

      - [types.ts]                       (the data model),
      - [services/geminiService.ts]      (the detection client and the
                                          coordinate / link mapper),
      - [components/DetectionOverlay.tsx] (the overlay renderer),
      - [components/VideoPlayer.tsx]      (frame capture, play and pause),
      - [App.tsx]                         (upload validation, view state),

    followed by the properties of the specification, each stated over these
    definitions.

    Conventions of the embedding.
      - A JavaScript string is a [string] holding the UTF-8 bytes of its
        text; an unpaired surrogate, which [JSON.parse] can produce from an
        escape, is held as the three bytes of its generalized UTF-8 form
        (ED, then A0..BF, then 80..BF).  Case mapping acts on the ASCII
        letters only; no non-ASCII character lower-cases to a letter that
        occurs in a key of the tables below, so lookups agree with the
        source.
      - A JavaScript number is a binary64 floating-point number ([float]),
        with the arithmetic of the source: [/] and [-] round as IEEE 754
        does.  A file size is a natural number of bytes ([N]); dividing a
        size below 2^53 by 1024 * 1024 is exact in binary64, so the size in
        megabytes is computed over the rationals ([Q]).
      - A [throw] is the left summand of [exc]; [try]/[catch] is
        [try_catch].  A handler with effects is an [io]: the effects in
        order, and a result or an exception.
      - Calls that leave the program (the detection service, [JSON.parse],
        the canvas, [URL.createObjectURL]) are parameters: fields of an
        environment record, or arguments, that fix their outcome.
      - One handler runs at a time; what other handlers do while a capture
        waits for the detection service is not part of a capture's trace. *)

From Stdlib Require Import String Ascii List Bool Arith NArith ZArith QArith Lia.
From Stdlib Require Import Qround Qabs DecimalString Floats Uint63.
Import ListNotations.

Set Warnings "-register-all,-inexact-float".
Local Open Scope string_scope.

(* ===================================================================== *)
(** * The JavaScript fragment the sources use                              *)
(* ===================================================================== *)

Module JS.

(** ** Exceptions *)

(** A thrown value: an [Error] whose [message] is a string or undefined. *)
Record exn : Type := Error { message : option string }.

Definition exc (A : Type) : Type := (exn + A)%type.

Definition ret {A : Type} (a : A) : exc A := inr a.
Definition throw {A : Type} (e : exn) : exc A := inl e.
Definition throw_new_Error {A : Type} (msg : string) : exc A :=
  inl (Error (Some msg)).

Definition bind {A B : Type} (c : exc A) (k : A -> exc B) : exc B :=
  match c with
  | inl e => inl e
  | inr a => k a
  end.

Declare Scope js_scope.
Delimit Scope js_scope with js.
Notation "x <- c ;; k" := (bind c (fun x => k))
  (at level 61, c at next level, right associativity) : js_scope.
Local Open Scope js_scope.

Definition try_catch {A : Type} (body : exc A) (handler : exn -> exc A) : exc A :=
  match body with
  | inl e => handler e
  | inr a => inr a
  end.

Fixpoint mapM {A B : Type} (f : A -> exc B) (l : list A) : exc (list B) :=
  match l with
  | [] => ret []
  | a :: l' =>
      b <- f a ;;
      bs <- mapM f l' ;;
      ret (b :: bs)
  end.

(** ** Strings *)

Definition is_upper (c : ascii) : bool :=
  let n := nat_of_ascii c in (65 <=? n)%nat && (n <=? 90)%nat.

Definition lower_ascii (c : ascii) : ascii :=
  if is_upper c then ascii_of_nat (nat_of_ascii c + 32) else c.

(** [s.toLowerCase()] *)
Fixpoint toLowerCase (s : string) : string :=
  match s with
  | EmptyString => EmptyString
  | String c s' => String (lower_ascii c) (toLowerCase s')
  end.

(** [s.startsWith(p)] *)
Definition startsWith (s p : string) : bool := String.prefix p s.

(** [s.includes(sub)] *)
Fixpoint includes (s sub : string) : bool :=
  String.prefix sub s ||
  match s with
  | EmptyString => false
  | String _ s' => includes s' sub
  end.

(** Is [s] equal to [suffix] once lower-cased?  ([suffix] is lower case.) *)
Definition eqb_nocase (s suffix : string) : bool :=
  String.eqb (toLowerCase s) suffix.

(** [s] ends in one of [suffixes], ASCII case ignored: the test of a
    regular expression [/(a|b|...)$/i] whose alternatives are literal. *)
Fixpoint ends_with_any_nocase (s : string) (suffixes : list string) : bool :=
  existsb (eqb_nocase s) suffixes ||
  match s with
  | EmptyString => false
  | String _ s' => ends_with_any_nocase s' suffixes
  end.

(** [s.split(sep)] for a one-character separator. *)
Fixpoint split (sep : ascii) (s : string) : list string :=
  match s with
  | EmptyString => [EmptyString]
  | String c s' =>
      if Ascii.eqb c sep then EmptyString :: split sep s'
      else match split sep s' with
           | [] => [String c EmptyString]
           | piece :: rest => String c piece :: rest
           end
  end.

(** Truthiness of a string or undefined: [!s] is [negb (truthy_string s)]. *)
Definition truthy_string (s : option string) : bool :=
  match s with
  | None | Some EmptyString => false
  | Some (String _ _) => true
  end.

(** [s || d] on a string or undefined. *)
Definition or_default (s : option string) (d : string) : string :=
  match s with
  | None | Some EmptyString => d
  | Some s' => s'
  end.

(** The decimal numeral of a natural number. *)
Definition decimal (n : N) : string := NilZero.string_of_uint (N.to_uint n).

(** [x.toFixed(1)]: the sign, then the tenths nearest to the magnitude of
    [x] (the larger on a tie) written with one digit after the point. *)
Definition toFixed_1 (x : Q) : string :=
  let tenths := Z.to_N (Qfloor (Qabs x * 10 + (1 # 2))%Q) in
  (if Qlt_le_dec x 0 then "-" else "")
    ++ decimal (tenths / 10)%N ++ "." ++ decimal (tenths mod 10)%N.

(** *** [encodeURIComponent]

    The encoding itself comes first: what the built-in returns when it
    returns.  The call, which can throw, follows it. *)

Definition is_digit (c : ascii) : bool :=
  let n := nat_of_ascii c in (48 <=? n)%nat && (n <=? 57)%nat.

Definition is_lower (c : ascii) : bool :=
  let n := nat_of_ascii c in (97 <=? n)%nat && (n <=? 122)%nat.

(** The characters [encodeURIComponent] leaves alone:
    letters, digits and [- _ . ! ~ * ' ( )]. *)
Definition uri_unreserved (c : ascii) : bool :=
  is_upper c || is_lower c || is_digit c ||
  existsb (Ascii.eqb c) ["-"; "_"; "."; "!"; "~"; "*"; "'"; "("; ")"]%char.

Definition hex_digit (n : nat) : ascii :=
  if (n <? 10)%nat then ascii_of_nat (48 + n) else ascii_of_nat (55 + n).

Definition percent_encode (c : ascii) : string :=
  let n := nat_of_ascii c in
  String "%" (String (hex_digit (n / 16)) (String (hex_digit (n mod 16)) EmptyString)).

Fixpoint encodeURIComponent (s : string) : string :=
  match s with
  | EmptyString => EmptyString
  | String c s' =>
      (if uri_unreserved c then String c EmptyString else percent_encode c)
        ++ encodeURIComponent s'
  end.

(** Does [s] hold an unpaired surrogate?  Its form starts with the byte
    ED followed by a byte of A0..BF; in the UTF-8 form of every other
    character, ED is followed by a byte of 80..9F. *)
Fixpoint has_lone_surrogate (s : string) : bool :=
  match s with
  | EmptyString => false
  | String c s' =>
      match s' with
      | String d _ =>
          ((nat_of_ascii c =? 237)%nat
           && (160 <=? nat_of_ascii d)%nat && (nat_of_ascii d <=? 191)%nat)
          || has_lone_surrogate s'
      | EmptyString => false
      end
  end.

(** The call [encodeURIComponent(s)]: a [URIError] when [s] holds an
    unpaired surrogate, the encoding above otherwise. *)
Definition call_encodeURIComponent (s : string) : exc string :=
  if has_lone_surrogate s then throw_new_Error "URI malformed"
  else ret (encodeURIComponent s).

End JS.

Import JS.
Local Open Scope js_scope.

(* ===================================================================== *)
(** * Values of type [any]                                                 *)
(* ===================================================================== *)

Module Any.

(** What [JSON.parse] returns, and what the mapper builds from it.  An
    object lists its own properties; a key is looked up at its first
    binding. *)
Inductive value : Type :=
| VUndefined
| VNull
| VBool (b : bool)
| VNumber (x : float)
| VString (s : string)
| VArray (elems : list value)
| VObject (props : list (string * value)).

Fixpoint lookup {A : Type} (key : string) (props : list (string * A)) : option A :=
  match props with
  | [] => None
  | (k, v) :: rest => if String.eqb k key then Some v else lookup key rest
  end.

(** Assignment of one property: an existing key keeps its place. *)
Fixpoint set_prop (key : string) (v : value) (props : list (string * value))
  : list (string * value) :=
  match props with
  | [] => [(key, v)]
  | (k, x) :: rest =>
      if String.eqb k key then (k, v) :: rest else (k, x) :: set_prop key v rest
  end.

Definition TypeError {A : Type} (msg : string) : exc A := throw_new_Error msg.

(** [v.key], for a [key] that no built-in prototype defines (the sources
    read [products], [category], [box] and [name]). *)
Definition get (v : value) (key : string) : exc value :=
  match v with
  | VUndefined =>
      TypeError ("Cannot read properties of undefined (reading '" ++ key ++ "')")
  | VNull =>
      TypeError ("Cannot read properties of null (reading '" ++ key ++ "')")
  | VObject props =>
      ret match lookup key props with Some x => x | None => VUndefined end
  | VBool _ | VNumber _ | VString _ | VArray _ => ret VUndefined
  end.

(** [v[i]] for a literal index [i].  A string is indexed by byte, which is
    the source's indexing on ASCII text. *)
Definition get_index (v : value) (i : nat) : exc value :=
  match v with
  | VUndefined =>
      TypeError ("Cannot read properties of undefined (reading '"
                   ++ decimal (N.of_nat i) ++ "')")
  | VNull =>
      TypeError ("Cannot read properties of null (reading '"
                   ++ decimal (N.of_nat i) ++ "')")
  | VArray elems => ret (nth i elems VUndefined)
  | VString s =>
      ret match String.get i s with
          | Some c => VString (String c EmptyString)
          | None => VUndefined
          end
  | VObject props =>
      ret match lookup (decimal (N.of_nat i)) props with
          | Some x => x
          | None => VUndefined
          end
  | VBool _ | VNumber _ => ret VUndefined
  end.

(** Truthiness: [!v] is [negb (truthy v)]. *)
Definition truthy (v : value) : bool :=
  match v with
  | VUndefined | VNull => false
  | VBool b => b
  | VNumber x => negb (PrimFloat.eqb x 0 || PrimFloat.is_nan x)
  | VString s => truthy_string (Some s)
  | VArray _ | VObject _ => true
  end.

(** [Array.isArray(v)] *)
Definition isArray (v : value) : bool :=
  match v with
  | VArray _ => true
  | _ => false
  end.

(** [v.toLowerCase()]: a method of strings only. *)
Definition call_toLowerCase (v : value) : exc string :=
  match v with
  | VString s => ret (toLowerCase s)
  | VUndefined =>
      TypeError "Cannot read properties of undefined (reading 'toLowerCase')"
  | VNull =>
      TypeError "Cannot read properties of null (reading 'toLowerCase')"
  | VBool _ | VNumber _ | VArray _ | VObject _ =>
      TypeError "p.category.toLowerCase is not a function"
  end.

Definition join (sep : string) (pieces : list string) : string :=
  match pieces with
  | [] => EmptyString
  | piece :: rest => fold_left (fun acc s => acc ++ sep ++ s) rest piece
  end.

(** The conversion applied to the argument of [encodeURIComponent];
    [Number_toString] is the numeral of a number.  An array joins its
    elements with commas, null and undefined elements giving the empty
    string; an object whose own [toString] property shadows the inherited
    method cannot be converted. *)
Fixpoint ToString (Number_toString : float -> string) (v : value) : exc string :=
  match v with
  | VUndefined => ret "undefined"
  | VNull => ret "null"
  | VBool true => ret "true"
  | VBool false => ret "false"
  | VNumber x => ret (Number_toString x)
  | VString s => ret s
  | VArray elems =>
      pieces <- mapM (fun e => match e with
                               | VUndefined | VNull => ret EmptyString
                               | _ => ToString Number_toString e
                               end) elems ;;
      ret (join "," pieces)
  | VObject props =>
      match lookup "toString" props with
      | Some _ => TypeError "Cannot convert object to primitive value"
      | None => ret "[object Object]"
      end
  end.

End Any.

Import Any.

(* ===================================================================== *)
(** * types.ts                                                             *)
(* ===================================================================== *)

Module Types.

Record BoundingBox : Type := {
  ymin : float;
  xmin : float;
  ymax : float;
  xmax : float
}.

Record DetectedProduct : Type := {
  id : string;
  name : string;
  category : string;
  confidence : float;
  box : BoundingBox;
  shoppingLink : string
}.

(** The response, over the type its products have at run time: [value]
    as the detection client builds them, [DetectedProduct] as the view
    reads them. *)
Record DetectionResponse (Product : Type) : Type := {
  products : list Product
}.

Arguments products {Product} _.
Arguments Build_DetectionResponse {Product} _.

Definition number_field (key : string) (props : list (string * value)) : option float :=
  match lookup key props with
  | Some (VNumber x) => Some x
  | _ => None
  end.

Definition string_field (key : string) (props : list (string * value)) : option string :=
  match lookup key props with
  | Some (VString s) => Some s
  | _ => None
  end.

Definition asBoundingBox (v : option value) : option BoundingBox :=
  match v with
  | Some (VObject props) =>
      match number_field "ymin" props, number_field "xmin" props,
            number_field "ymax" props, number_field "xmax" props with
      | Some y0, Some x0, Some y1, Some x1 =>
          Some {| ymin := y0; xmin := x0; ymax := y1; xmax := x1 |}
      | _, _, _, _ => None
      end
  | _ => None
  end.

(** A run-time object read at the interface [DetectedProduct]: defined
    exactly when each declared field is present with its declared type. *)
Definition asDetectedProduct (v : value) : option DetectedProduct :=
  match v with
  | VObject props =>
      match string_field "id" props, string_field "name" props,
            string_field "category" props, number_field "confidence" props,
            asBoundingBox (lookup "box" props), string_field "shoppingLink" props with
      | Some i, Some n, Some c, Some conf, Some b, Some link =>
          Some {| id := i; name := n; category := c; confidence := conf;
                  box := b; shoppingLink := link |}
      | _, _, _, _, _, _ => None
      end
  | _ => None
  end.

Fixpoint asDetectedProducts (vs : list value) : option (list DetectedProduct) :=
  match vs with
  | [] => Some []
  | v :: rest =>
      match asDetectedProduct v, asDetectedProducts rest with
      | Some p, Some ps => Some (p :: ps)
      | _, _ => None
      end
  end.

Definition asDetectionResponse (r : DetectionResponse value)
  : option (DetectionResponse DetectedProduct) :=
  option_map Build_DetectionResponse (asDetectedProducts (products r)).

End Types.

(* ===================================================================== *)
(** * services/geminiService.ts                                            *)
(* ===================================================================== *)

Module GeminiService.

Import Types.

Definition SEARCH_BASE_URLS : list (string * string) :=
  [ ("fashion", "https://www.amazon.com/s?k=");
    ("shoe", "https://www.nike.com/w?q=");
    ("electronics", "https://www.bestbuy.com/site/searchpage.jsp?st=");
    ("default", "https://www.google.com/search?q=buy+") ].

(** [SEARCH_BASE_URLS] is an object literal, so a key it does not own is
    looked up on [Object.prototype]. *)
Definition Object_prototype : list string :=
  [ "constructor"; "hasOwnProperty"; "isPrototypeOf"; "propertyIsEnumerable";
    "toLocaleString"; "toString"; "valueOf"; "__proto__";
    "__defineGetter__"; "__defineSetter__"; "__lookupGetter__"; "__lookupSetter__" ].

Inductive entry : Type :=
| Own (url : string)          (* a string of the table *)
| Inherited (key : string).   (* a member of [Object.prototype] *)

(** [SEARCH_BASE_URLS[key]]; [None] is undefined. *)
Definition SEARCH_BASE_URLS_get (key : string) : option entry :=
  match lookup key SEARCH_BASE_URLS with
  | Some url => Some (Own url)
  | None =>
      if existsb (String.eqb key) Object_prototype then Some (Inherited key)
      else None
  end.

Definition truthy_entry (e : option entry) : bool :=
  match e with
  | None => false
  | Some (Own url) => truthy_string (Some url)
  | Some (Inherited _) => true
  end.

(** [SEARCH_BASE_URLS[key] || SEARCH_BASE_URLS["default"]] *)
Definition base_url_for (key : string) : option entry :=
  if truthy_entry (SEARCH_BASE_URLS_get key) then SEARCH_BASE_URLS_get key
  else SEARCH_BASE_URLS_get "default".

(** [`${baseUrl}`]: a string as it is; [Object.prototype] and its
    functions print as objects and native functions do. *)
Definition entry_to_string (e : option entry) : string :=
  match e with
  | None => "undefined"
  | Some (Own url) => url
  | Some (Inherited key) =>
      if String.eqb key "__proto__" then "[object Object]"
      else if String.eqb key "constructor" then "function Object() { [native code] }"
      else "function " ++ key ++ "() { [native code] }"
  end.

Record GenerateContentResponse : Type := {
  text : option string
}.

(** What the client calls and does not define. *)
Record Host : Type := {
  (** [ai.models.generateContent] on the request built from the image *)
  generateContent : option string -> exc GenerateContentResponse;
  JSON_parse : string -> exc value;
  Number_toString : float -> string
}.

Definition own_props (p : value) : list (string * value) :=
  match p with
  | VObject props => props
  | _ => []
  end.

(** The callback of [result.products.map]. *)
Definition map_product (h : Host) (p : value) : exc value :=
  p_category <- get p "category" ;;
  key <- call_toLowerCase p_category ;;
  let baseUrl := base_url_for key in
  p_box <- get p "box" ;;
  ymin <- get_index p_box 0 ;;
  xmin <- get_index p_box 1 ;;
  ymax <- get_index p_box 2 ;;
  xmax <- get_index p_box 3 ;;
  p_name <- get p "name" ;;
  name_string <- ToString (Number_toString h) p_name ;;
  encoded_name <- call_encodeURIComponent name_string ;;
  let box := VObject [("ymin", ymin); ("xmin", xmin); ("ymax", ymax); ("xmax", xmax)] in
  let shoppingLink := VString (entry_to_string baseUrl ++ encoded_name) in
  ret (VObject (set_prop "shoppingLink" shoppingLink (set_prop "box" box (own_props p)))).

Definition message_includes (e : exn) (needle : string) : bool :=
  match message e with
  | Some m => includes m needle
  | None => false
  end.

Definition detectProducts (h : Host) (base64Image : option string)
  : exc (DetectionResponse value) :=
  try_catch
    (response <- generateContent h base64Image ;;
     match text response with
     | None | Some EmptyString =>
         throw_new_Error "The AI model returned an empty response."
     | Some text =>
         result <- JSON_parse h text ;;
         result_products <- get result "products" ;;
         if negb (truthy result_products) || negb (isArray result_products)
         then ret {| products := [] |}
         else
           match result_products with
           | VArray elems =>
               products <- mapM (map_product h) elems ;;
               ret {| products := products |}
           | _ => ret {| products := [] |}
           end
     end)
    (fun error =>
       if message_includes error "API_KEY"
       then throw_new_Error "Invalid or missing API Key. Please check your configuration."
       else throw_new_Error
              (or_default (message error)
                 "An unexpected error occurred during product detection.")).

End GeminiService.

(* ===================================================================== *)
(** * components/DetectionOverlay.tsx                                      *)
(* ===================================================================== *)

Module DetectionOverlay.

Import Types.

(** The inline style of a rectangle; each field is the number printed in
    front of the [%] sign. *)
Record Style : Type := {
  top : float;
  left : float;
  width : float;
  height : float
}.

Record Rectangle : Type := {
  key : string;
  style : Style;
  (** the arguments of [window.open] on a click *)
  onClick : string * string;
  (** the label shown on hover *)
  tooltip : string
}.

Inductive Element : Type :=
| AnalyzingFrame                        (* the loading indicator *)
| Null                                  (* [return null] *)
| Overlay (boxes : list Rectangle).

Definition rectangle (product : DetectedProduct) : Rectangle :=
  {| key := id product;
     style := {| top := (ymin (box product) / 10)%float;
                 left := (xmin (box product) / 10)%float;
                 width := ((xmax (box product) - xmin (box product)) / 10)%float;
                 height := ((ymax (box product) - ymin (box product)) / 10)%float |};
     onClick := (shoppingLink product, "_blank");
     tooltip := name product |}.

Definition DetectionOverlay (products : list DetectedProduct) (isProcessing : bool)
  : Element :=
  if isProcessing then AnalyzingFrame
  else if (length products =? 0)%nat then Null
  else Overlay (map rectangle products).

(** The number of rectangles on screen. *)
Definition rectangles (e : Element) : list Rectangle :=
  match e with
  | Overlay boxes => boxes
  | AnalyzingFrame | Null => []
  end.

End DetectionOverlay.

(* ===================================================================== *)
(** * The browser objects and the effects of the event handlers            *)
(* ===================================================================== *)

Module DOM.

Record File : Type := {
  name : string;
  type : string;
  size : N
}.

Record Video : Type := {
  videoWidth : N;
  videoHeight : N
}.

Record Canvas : Type := {
  (** does [getContext('2d')] return a context? *)
  getContext_2d : bool
}.

End DOM.

Module Effects.

Import Types DOM.

(** What a handler does to the world, in the order it does it: calls of
    the state setters of [App] (the player reaches three of them through
    its props), of its own setter, and of the functions it does not
    define. *)
Inductive effect : Type :=
| setVideoSrc (url : string)
| setDetections (ps : list DetectedProduct)
| setIsProcessing (b : bool)
| setHasUploaded (b : bool)
| setError (msg : option string)
| setIsPaused (b : bool)
| ctx_drawImage (width height : N)
| canvas_toDataURL
| call_detectProducts (base64Image : option string)
| URL_revokeObjectURL (url : string)
| URL_createObjectURL (file : File)
| console_error (e : exn).

(** A handler: the effects so far, and a result or the exception that
    stopped it. *)
Definition io (A : Type) : Type := (list effect * exc A)%type.

Definition io_ret {A : Type} (a : A) : io A := ([], inr a).

Definition io_throw {A : Type} (e : exn) : io A := ([], inl e).

Definition io_bind {A B : Type} (c : io A) (k : A -> io B) : io B :=
  match c with
  | (t, inl e) => (t, inl e)
  | (t, inr a) => let (t', r) := k a in ((t ++ t')%list, r)
  end.

Definition emit (e : effect) : io unit := ([e], inr tt).

(** A call of an outside function, logged, with the outcome it has. *)
Definition call {A : Type} (e : effect) (outcome : exc A) : io A := ([e], outcome).

Definition io_try_catch {A : Type} (body : io A) (handler : exn -> io A) : io A :=
  match body with
  | (t, inl e) => let (t', r) := handler e in ((t ++ t')%list, r)
  | (t, inr a) => (t, inr a)
  end.

Definition io_try_finally {A : Type} (body : io A) (finalizer : io unit) : io A :=
  let (t, r) := body in
  match finalizer with
  | (t', inl e) => ((t ++ t')%list, inl e)
  | (t', inr _) => ((t ++ t')%list, r)
  end.

Definition trace {A : Type} (c : io A) : list effect := fst c.

Declare Scope io_scope.
Delimit Scope io_scope with io.
Notation "x <- c ;; k" := (io_bind c (fun x => k))
  (at level 61, c at next level, right associativity) : io_scope.
Notation "c ;; k" := (io_bind c (fun _ => k))
  (at level 61, right associativity) : io_scope.

End Effects.

(* ===================================================================== *)
(** * components/VideoPlayer.tsx                                           *)
(* ===================================================================== *)

Module VideoPlayer.

Import Types DOM Effects.
Local Open Scope io_scope.

(** The props [onDetections], [onProcessing] and [onError], as [App]
    passes them. *)
Definition onDetections := setDetections.
Definition onProcessing := setIsProcessing.
Definition onError := setError.

(** The surroundings of one capture: the two refs, and the outcome of each
    outside call the capture can make. *)
Record Browser : Type := {
  videoRef_current : option Video;
  canvasRef_current : option Canvas;
  drawImage : exc unit;
  toDataURL : exc string;
  detectProducts : option string -> exc (DetectionResponse DetectedProduct)
}.

Definition invalid_dimensions_message : string :=
  "Video dimensions are invalid. Ensure the video is loaded properly.".

Definition cors_message : string :=
  "Cannot capture frame due to security restrictions (CORS). Please try a local file or a CORS-enabled URL.".

Definition analysis_failed_message : string :=
  "Failed to analyze the video frame.".

Definition captureFrame (w : Browser) : io unit :=
  match videoRef_current w, canvasRef_current w with
  | Some video, Some canvas =>
      if negb (getContext_2d canvas) then io_ret tt
      else
        let canvas_width := videoWidth video in
        let canvas_height := videoHeight video in
        if (canvas_width =? 0)%N || (canvas_height =? 0)%N then
          emit (onError (Some invalid_dimensions_message))
        else
          io_try_finally
            (io_try_catch
               (emit (onError None) ;;
                emit (onProcessing true) ;;
                emit (onDetections []) ;;
                call (ctx_drawImage canvas_width canvas_height) (drawImage w) ;;
                dataUrl <- io_try_catch
                             (call canvas_toDataURL (toDataURL w))
                             (fun _ => io_throw (Error (Some cors_message))) ;;
                let base64 := nth_error (split "," dataUrl) 1 in
                results <- call (call_detectProducts base64) (detectProducts w base64) ;;
                emit (onDetections (products results)))
               (fun error =>
                  emit (console_error error) ;;
                  emit (onError (Some
                    (or_default (message error) analysis_failed_message)))))
            (emit (onProcessing false))
  | _, _ => io_ret tt
  end.

Definition handlePause (w : Browser) : io unit :=
  emit (setIsPaused true) ;;
  captureFrame w.

Definition handlePlay : io unit :=
  emit (setIsPaused false) ;;
  emit (onError None) ;;
  emit (onDetections []).

(** The [onError] handler of the video element. *)
Definition handleVideoError : io unit :=
  emit (onError (Some
    "Error loading video source. Please check the file format or URL.")).

End VideoPlayer.

(* ===================================================================== *)
(** * App.tsx                                                              *)
(* ===================================================================== *)

Module App.

Import Types DOM Effects.
Local Open Scope io_scope.

Definition SAMPLE_VIDEO : string :=
  "https://storage.googleapis.com/gtv-videos-bucket/sample/BigBuckBunny.mp4".

Definition MAX_FILE_SIZE_MB : N := 100.

(** The view state: the five [useState] cells of [App] and the one of the
    player. *)
Record State : Type := {
  videoSrc : string;
  detections : list DetectedProduct;
  isProcessing : bool;
  hasUploaded : bool;
  error : option string;
  isPaused : bool
}.

Definition initial : State :=
  {| videoSrc := SAMPLE_VIDEO; detections := []; isProcessing := false;
     hasUploaded := false; error := None; isPaused := true |}.

(** One effect on the view state; the outside calls leave it alone. *)
Definition step (st : State) (e : effect) : State :=
  match e with
  | setVideoSrc url =>
      {| videoSrc := url; detections := detections st; isProcessing := isProcessing st;
         hasUploaded := hasUploaded st; error := error st; isPaused := isPaused st |}
  | setDetections ps =>
      {| videoSrc := videoSrc st; detections := ps; isProcessing := isProcessing st;
         hasUploaded := hasUploaded st; error := error st; isPaused := isPaused st |}
  | setIsProcessing b =>
      {| videoSrc := videoSrc st; detections := detections st; isProcessing := b;
         hasUploaded := hasUploaded st; error := error st; isPaused := isPaused st |}
  | setHasUploaded b =>
      {| videoSrc := videoSrc st; detections := detections st; isProcessing := isProcessing st;
         hasUploaded := b; error := error st; isPaused := isPaused st |}
  | setError msg =>
      {| videoSrc := videoSrc st; detections := detections st; isProcessing := isProcessing st;
         hasUploaded := hasUploaded st; error := msg; isPaused := isPaused st |}
  | setIsPaused b =>
      {| videoSrc := videoSrc st; detections := detections st; isProcessing := isProcessing st;
         hasUploaded := hasUploaded st; error := error st; isPaused := b |}
  | ctx_drawImage _ _ | canvas_toDataURL | call_detectProducts _
  | URL_revokeObjectURL _ | URL_createObjectURL _ | console_error _ => st
  end.

Definition run (st : State) (effects : list effect) : State :=
  fold_left step effects st.

(** The state after a handler. *)
Definition after {A : Type} (st : State) (handler : io A) : State :=
  run st (trace handler).

Definition dquote : string := String (ascii_of_nat 34) EmptyString.

Definition VIDEO_EXTENSIONS : list string :=
  [".mp4"; ".webm"; ".ogg"; ".mov"; ".mkv"].

Definition isVideoMime (file : File) : bool := startsWith (type file) "video/".

(** [/\.(mp4|webm|ogg|mov|mkv)$/i.test(file.name)] *)
Definition hasVideoExtension (file : File) : bool :=
  ends_with_any_nocase (name file) VIDEO_EXTENSIONS.

Definition unsupported_format_message (file : File) : string :=
  dquote ++ name file ++ dquote ++
  " does not appear to be a supported video format. Please use MP4, WebM, or OGG.".

Definition empty_file_message : string :=
  "The selected file is empty (0 bytes). Please upload a valid video file.".

Definition actualSizeMB (file : File) : string :=
  toFixed_1 (inject_Z (Z.of_N (size file)) / inject_Z (1024 * 1024)).

Definition too_large_message (file : File) : string :=
  "File is too large (" ++ actualSizeMB file ++ "MB). Please select a video smaller than "
    ++ decimal MAX_FILE_SIZE_MB ++ "MB to ensure smooth analysis.".

Definition critical_error_message : string :=
  "Encountered a critical error while preparing the video file. The file might be corrupted or in an incompatible format.".

(** [st] is the state of the render that created the handler (it reads
    [videoSrc]); [file] is [e.target.files?.[0]]. *)
Definition handleFileUpload (createObjectURL : File -> exc string)
    (st : State) (file : option File) : io unit :=
  emit (setError None) ;;
  match file with
  | None => io_ret tt
  | Some file =>
      if negb (isVideoMime file) && negb (hasVideoExtension file) then
        emit (setError (Some (unsupported_format_message file)))
      else if (size file =? 0)%N then
        emit (setError (Some empty_file_message))
      else
        let maxSizeInBytes := (MAX_FILE_SIZE_MB * 1024 * 1024)%N in
        if (maxSizeInBytes <? size file)%N then
          emit (setError (Some (too_large_message file)))
        else
          io_try_catch
            ((if truthy_string (Some (videoSrc st)) && startsWith (videoSrc st) "blob:"
              then emit (URL_revokeObjectURL (videoSrc st))
              else io_ret tt) ;;
             url <- call (URL_createObjectURL file) (createObjectURL file) ;;
             if negb (truthy_string (Some url))
             then io_throw (Error (Some "Local URL generation failed."))
             else
               emit (setVideoSrc url) ;;
               emit (setDetections []) ;;
               emit (setHasUploaded true) ;;
               emit (setError None))
            (fun err =>
               emit (console_error err) ;;
               emit (setError (Some critical_error_message)))
  end.

Definition clearError : io unit := emit (setError None).

(** The overlay [App] renders over the player. *)
Definition overlay (st : State) : DetectionOverlay.Element :=
  DetectionOverlay.DetectionOverlay (detections st) (isProcessing st).

End App.

(* ===================================================================== *)
(** * What the properties observe                                          *)
(* ===================================================================== *)

Module Observe.

Import Effects.

(** The upload was taken: the player shows the new file. *)
Definition accepted (effects : list effect) : bool :=
  existsb (fun e => match e with setVideoSrc _ => true | _ => false end) effects.

(** Is the processing flag up whenever [effects], run from [st], call
    the detection client? *)
Fixpoint requests_while_processing (st : App.State) (effects : list effect) : bool :=
  match effects with
  | [] => true
  | e :: rest =>
      match e with
      | call_detectProducts _ => App.isProcessing st
      | _ => true
      end && requests_while_processing (App.step st e) rest
  end.

Definition is_detection_request (e : effect) : bool :=
  match e with
  | call_detectProducts _ => true
  | _ => false
  end.

Definition sets_processing (e : effect) : bool :=
  match e with
  | setIsProcessing _ => true
  | _ => false
  end.

(** Did [URL.createObjectURL] return a usable URL? *)
Definition url_created (outcome : exc string) : bool :=
  match outcome with
  | inr url => truthy_string (Some url)
  | inl _ => false
  end.

(** The tenths of a megabyte nearest to [n] bytes, halves going up: the
    number [actualSizeMB] prints. *)
Definition tenths_of_MB (n : N) : N := ((20 * n + 1048576) / 2097152)%N.

End Observe.

(* ===================================================================== *)
(** * App.tsx: what is rendered, and the effect on [videoSrc]              *)
(* ===================================================================== *)

Module AppView.

Import Types DOM Effects.
Local Open Scope io_scope.

(** The cleanup function of the [useEffect] on [videoSrc], for the render
    in which the source is [videoSrc]. *)
Definition cleanup (videoSrc : string) : io unit :=
  if truthy_string (Some videoSrc) && startsWith videoSrc "blob:"
  then emit (URL_revokeObjectURL videoSrc)
  else io_ret tt.

(** The effect depends on [videoSrc] alone: after a render the cleanup of
    the render before runs exactly when the source has changed. *)
Definition rerender (before after : App.State) : io unit :=
  if String.eqb (App.videoSrc before) (App.videoSrc after) then io_ret tt
  else cleanup (App.videoSrc before).

(** Unmounting runs the cleanup of the last render. *)
Definition unmount (st : App.State) : io unit := cleanup (App.videoSrc st).

(** [{error && (...)}]: the banner and the text in it. *)
Definition error_banner (st : App.State) : option string :=
  match App.error st with
  | Some (String c rest) => Some (String c rest)
  | Some EmptyString | None => None
  end.

(** The icon class of a product card. *)
Definition icon_for (category : string) : string :=
  if includes (toLowerCase category) "fashion" then "fa-tshirt"
  else if includes (toLowerCase category) "electronics" then "fa-laptop"
  else if includes (toLowerCase category) "home" then "fa-couch"
  else "fa-tag".

(** A card of the result list: a link opened in a new tab. *)
Record Card : Type := {
  key : string;
  href : string;
  target : string;
  icon : string;
  title : string;
  subtitle : string
}.

Definition card (product : DetectedProduct) : Card :=
  {| key := id product;
     href := shoppingLink product;
     target := "_blank";
     icon := icon_for (category product);
     title := Types.name product;
     subtitle := category product |}.

Inductive AnalysisResults : Type :=
| Placeholder                      (* the hint to pause the video *)
| Skeleton                         (* three pulsing bars *)
| ProductList (cards : list Card).

(** The body of the Analysis Results panel. *)
Definition analysis_results (st : App.State) : AnalysisResults :=
  if (length (App.detections st) =? 0)%nat && negb (App.isProcessing st)
  then Placeholder
  else if App.isProcessing st then Skeleton
  else ProductList (map card (App.detections st)).

Definition cards (r : AnalysisResults) : list Card :=
  match r with
  | ProductList cs => cs
  | Placeholder | Skeleton => []
  end.

(** [{!hasUploaded && (...)}]: the hint that the demo video is playing. *)
Definition demo_hint (st : App.State) : bool := negb (App.hasUploaded st).

End AppView.

(* ===================================================================== *)
(** * Runs of several handlers                                             *)
(* ===================================================================== *)

Module Runs.

Import Types DOM Effects.

(** One use of the file input: the file picked (none when the dialog is
    cancelled) and what [URL.createObjectURL] does if it is called. *)
Record Upload : Type := {
  picked : option File;
  created : exc string
}.

(** The handler of the current render, then the render it causes. *)
Definition upload_event (st : App.State) (u : Upload) : list effect :=
  let handled := trace (App.handleFileUpload (fun _ => created u) st (picked u)) in
  (handled ++ trace (AppView.rerender st (App.run st handled)))%list.

(** The life of the page from state [st]: uploads, then the unmount. *)
Fixpoint session_from (st : App.State) (uploads : list Upload) : list effect :=
  match uploads with
  | [] => trace (AppView.unmount st)
  | u :: rest =>
      (upload_event st u ++ session_from (App.run st (upload_event st u)) rest)%list
  end.

Definition session (uploads : list Upload) : list effect :=
  session_from App.initial uploads.

(** What the user and the video element can do to the page. *)
Inductive Event : Type :=
| FileChosen (u : Upload)                (* the file input changes *)
| Paused (w : VideoPlayer.Browser)       (* [onPause], with what the capture meets *)
| Played                                 (* [onPlay] *)
| VideoFailed                            (* [onError] of the video element *)
| BannerClosed.                          (* the close button of the banner *)

Definition handle (st : App.State) (ev : Event) : io unit :=
  match ev with
  | FileChosen u => App.handleFileUpload (fun _ => created u) st (picked u)
  | Paused w => VideoPlayer.handlePause w
  | Played => VideoPlayer.handlePlay
  | VideoFailed => VideoPlayer.handleVideoError
  | BannerClosed => App.clearError
  end.

(** The view state after a sequence of events, each handled to its end. *)
Definition reach (st : App.State) (events : list Event) : App.State :=
  fold_left (fun st ev => App.after st (handle st ev)) events st.

(** Effects that leave the source of the player alone. *)
Definition keeps_source (e : effect) : bool :=
  match e with
  | setVideoSrc _ | setHasUploaded _ => false
  | _ => true
  end.

(** Effects that neither report an error nor put products on screen. *)
Definition clears_only (e : effect) : bool :=
  match e with
  | setError (Some _) => false
  | setDetections (_ :: _) => false
  | _ => true
  end.

(** Effects that do not report an empty message. *)
Definition reports_text (e : effect) : bool :=
  match e with
  | setError (Some EmptyString) => false
  | _ => true
  end.

(** The capture on [w] runs to its end and the detection client answers
    [r]: the player is mounted, the frame has a size, drawing and
    serializing succeed. *)
Definition capture_succeeds (w : VideoPlayer.Browser)
    (r : DetectionResponse DetectedProduct) : Prop :=
  exists video canvas dataUrl,
    VideoPlayer.videoRef_current w = Some video /\
    VideoPlayer.canvasRef_current w = Some canvas /\
    getContext_2d canvas = true /\
    videoWidth video <> 0%N /\ videoHeight video <> 0%N /\
    VideoPlayer.drawImage w = ret tt /\
    VideoPlayer.toDataURL w = ret dataUrl /\
    VideoPlayer.detectProducts w (nth_error (split "," dataUrl) 1) = ret r.

(** Does [s] hold a comma? *)
Definition has_comma (s : string) : bool :=
  existsb (Ascii.eqb ",") (list_ascii_of_string s).

(** A capture is suspended at its detection request: what it does up to
    and including the request, and what it does once the answer is in. *)
Fixpoint before_request (capture : list effect) : list effect :=
  match capture with
  | [] => []
  | e :: rest =>
      if Observe.is_detection_request e then [e] else e :: before_request rest
  end.

Fixpoint after_request (capture : list effect) : list effect :=
  match capture with
  | [] => []
  | e :: rest =>
      if Observe.is_detection_request e then rest else after_request rest
  end.

(** Another handler runs while the capture waits for the answer. *)
Definition during_request (capture other : list effect) : list effect :=
  (before_request capture ++ other ++ after_request capture)%list.

End Runs.

(* ===================================================================== *)
(** * Reading an encoded component back                                    *)
(* ===================================================================== *)

Module Decode.

Definition unhex (c : ascii) : option nat :=
  let n := nat_of_ascii c in
  if is_digit c then Some (n - 48)%nat
  else if (65 <=? n)%nat && (n <=? 70)%nat then Some (n - 55)%nat
  else None.

(** The inverse of [encodeURIComponent] a server applies to a query:
    [%XY] is the byte with hexadecimal digits [X] and [Y], any other
    character is itself. *)
Fixpoint decodeURIComponent (s : string) : option string :=
  match s with
  | EmptyString => Some EmptyString
  | String c rest =>
      if Ascii.eqb c "%" then
        match rest with
        | String x (String y rest') =>
            match unhex x, unhex y, decodeURIComponent rest' with
            | Some hi, Some lo, Some decoded =>
                Some (String (ascii_of_nat (16 * hi + lo)%nat) decoded)
            | _, _, _ => None
            end
        | _ => None
        end
      else
        match decodeURIComponent rest with
        | Some decoded => Some (String c decoded)
        | None => None
        end
  end.

End Decode.

(* ===================================================================== *)
(** * Coordinates on the integer scale                                     *)
(* ===================================================================== *)

Module Scale.

(** The number with integer value [z]. *)
Definition integer (z : Z) : float := PrimFloat.of_uint63 (Uint63.of_Z z).

(** The integers of the scale, 0 to 1000. *)
Definition scale : list Z := map Z.of_nat (seq 0 1001).

(** Along one axis, for the coordinates [lo] and [hi]: are the offset
    [lo/10], the size [(hi - lo)/10] and their sum between 0 and 100? *)
Definition inside (lo hi : Z) : bool :=
  let offset := (integer lo / 10)%float in
  let size := ((integer hi - integer lo) / 10)%float in
  PrimFloat.leb 0 offset && PrimFloat.leb offset 100
  && PrimFloat.leb 0 size && PrimFloat.leb size 100
  && PrimFloat.leb (offset + size) 100.

Definition for_all_pairs (f : Z -> Z -> bool) (l : list Z) : bool :=
  forallb (fun hi => forallb (fun lo => (hi <? lo)%Z || f lo hi) l) l.

End Scale.

(* ===================================================================== *)
(** * Concrete inputs                                                      *)
(* ===================================================================== *)

Module Samples.

Import Types.

(** The box [100, 200, 400, 600] of the specification. *)
Definition sample_box : BoundingBox :=
  {| ymin := 100%float; xmin := 200%float; ymax := 400%float; xmax := 600%float |}.

(** A box with fractional coordinates, which the answer schema allows. *)
Definition fractional_product : DetectedProduct :=
  {| id := "p0"; name := "Pin"; category := "accessories"; confidence := 0.5%float;
     box := {| ymin := 0.1%float; xmin := 0.1%float; ymax := 0.3%float; xmax := 0.3%float |};
     shoppingLink := "https://www.google.com/search?q=buy+Pin" |}.

(** A box that starts at the fractional coordinate 0.4 and spans the rest
    of the frame. *)
Definition tall_product : DetectedProduct :=
  {| id := "p3"; name := "Curtain"; category := "home decor"; confidence := 0.5%float;
     box := {| ymin := 0.4%float; xmin := 0%float; ymax := 1000%float; xmax := 1000%float |};
     shoppingLink := "https://www.google.com/search?q=buy+Curtain" |}.

Definition sample_product : DetectedProduct :=
  {| id := "p1"; name := "Air Max 90"; category := "Shoe"; confidence := 0.9%float;
     box := sample_box;
     shoppingLink := "https://www.nike.com/w?q=Air%20Max%2090" |}.

(** Files a user can pick. *)
Definition notes_txt : DOM.File :=
  {| DOM.name := "notes.txt"; DOM.type := "text/plain"; DOM.size := 0 |}.

Definition empty_mp4 : DOM.File :=
  {| DOM.name := "clip.mp4"; DOM.type := "video/mp4"; DOM.size := 0 |}.

Definition empty_mov : DOM.File :=
  {| DOM.name := "clip.mov"; DOM.type := "video/quicktime"; DOM.size := 0 |}.

(** 200 MB of text, and 200 MB of video without a MIME type. *)
Definition big_txt : DOM.File :=
  {| DOM.name := "archive.txt"; DOM.type := "text/plain"; DOM.size := 209715200 |}.

Definition big_mkv : DOM.File :=
  {| DOM.name := "movie.MKV"; DOM.type := ""; DOM.size := 209715200 |}.

Definition small_webm : DOM.File :=
  {| DOM.name := "demo.webm"; DOM.type := "video/webm"; DOM.size := 5242880 |}.

(** [URL.createObjectURL] in a browser that can make the URL. *)
Definition blob_url (file : DOM.File) : exc string := ret "blob:http://localhost/1".

(** Detection responses.  [quoted s] is [s] between double quotes. *)
Definition quoted (s : string) : string := App.dquote ++ s ++ App.dquote.

(** The product the service reports for a shoe in the box
    [100, 200, 400, 600], with its category in mixed case. *)
Definition shoe_object : value :=
  VObject [ ("id", VString "p1"); ("name", VString "Air Max 90");
            ("category", VString "Shoe");
            ("box", VArray [VNumber 100; VNumber 200; VNumber 400; VNumber 600]);
            ("confidence", VNumber 0.9) ].

(** The answer that reports this one product, and its parsed form. *)
Definition shoe_text : string :=
  "{" ++ quoted "products" ++ ":[{"
    ++ quoted "id" ++ ":" ++ quoted "p1" ++ ","
    ++ quoted "name" ++ ":" ++ quoted "Air Max 90" ++ ","
    ++ quoted "category" ++ ":" ++ quoted "Shoe" ++ ","
    ++ quoted "box" ++ ":[100,200,400,600],"
    ++ quoted "confidence" ++ ":0.9}]}".

Definition shoe_response : value := VObject [("products", VArray [shoe_object])].

(** A name that is one unpaired surrogate, U+D800, as [JSON.parse]
    gives it for an escaped surrogate. *)
Definition lone_surrogate : string :=
  String (ascii_of_nat 237) (String (ascii_of_nat 160) (String (ascii_of_nat 128) EmptyString)).

(** The same product under the category constructor. *)
Definition constructor_object : value :=
  VObject [ ("id", VString "p1"); ("name", VString "Air Max 90");
            ("category", VString "constructor");
            ("box", VArray [VNumber 100; VNumber 200; VNumber 400; VNumber 600]);
            ("confidence", VNumber 0.9) ].

(** The numeral of an integer-valued number below 10^21 (the integer part
    for any other finite number); the samples print no other. *)
Definition integer_numeral (x : float) : string :=
  match Prim2SF x with
  | S754_zero _ => "0"
  | S754_infinity false => "Infinity"
  | S754_infinity true => "-Infinity"
  | S754_nan => "NaN"
  | S754_finite sign m e =>
      (if sign then "-" else "")
        ++ decimal (Z.to_N (match e with
                            | Z.neg k => Z.pos m / Z.pos (2 ^ k)
                            | _ => Z.pos m * 2 ^ e
                            end)%Z)
  end.

(** A service that answers [text] to every request, with a parser that
    knows this one text and its value. *)
Definition host_answering (text : option string) (parsed : value) : GeminiService.Host :=
  {| GeminiService.generateContent :=
       fun _ => ret {| GeminiService.text := text |};
     GeminiService.JSON_parse :=
       fun t => if String.eqb t (or_default text "") then ret parsed
                else throw_new_Error "Unexpected token";
     GeminiService.Number_toString := integer_numeral |}.

(** [{"products":[{}]}]: a product with none of the expected fields. *)
Definition bare_product_text : string :=
  "{" ++ quoted "products" ++ ":[{}]}".

Definition bare_product_response : value :=
  VObject [("products", VArray [VObject []])].

(** [{"items":[]}]: no products field. *)
Definition no_products_text : string :=
  "{" ++ quoted "items" ++ ":[]}".

Definition no_products_response : value :=
  VObject [("items", VArray [])].

(** [{"products":"none"}]: a products field that is no array. *)
Definition string_products_text : string :=
  "{" ++ quoted "products" ++ ":" ++ quoted "none" ++ "}".

Definition string_products_response : value :=
  VObject [("products", VString "none")].

(** Players. *)
Definition ready_video : DOM.Video := {| DOM.videoWidth := 640; DOM.videoHeight := 360 |}.

Definition unloaded_video : DOM.Video := {| DOM.videoWidth := 0; DOM.videoHeight := 360 |}.

Definition tainted : exc string :=
  throw_new_Error "Tainted canvases may not be exported.".

Definition jpeg : exc string := ret "data:image/jpeg;base64,AAAA".

(** A mounted player over [video], whose canvas serializes as [dataUrl]
    says and whose detection call ends as [detection] says. *)
Definition browser (video : DOM.Video) (dataUrl : exc string)
    (detection : exc (Types.DetectionResponse Types.DetectedProduct))
  : VideoPlayer.Browser :=
  {| VideoPlayer.videoRef_current := Some video;
     VideoPlayer.canvasRef_current := Some {| DOM.getContext_2d := true |};
     VideoPlayer.drawImage := ret tt;
     VideoPlayer.toDataURL := dataUrl;
     VideoPlayer.detectProducts := fun _ => detection |}.

(** Uses of the file input. *)
Definition pick (file : DOM.File) (url : string) : Runs.Upload :=
  {| Runs.picked := Some file; Runs.created := ret url |}.

(** A view that already shows an uploaded file. *)
Definition showing_upload : App.State :=
  {| App.videoSrc := "blob:http://localhost/0"; App.detections := [sample_product];
     App.isProcessing := false; App.hasUploaded := true; App.error := None;
     App.isPaused := true |}.

(** [URL.createObjectURL] in a browser that cannot make the URL. *)
Definition no_url (file : DOM.File) : exc string :=
  throw_new_Error "Failed to execute 'createObjectURL' on 'URL'".

(** A second product, and a player whose detection finds it. *)
Definition other_product : Types.DetectedProduct :=
  {| Types.id := "p2"; Types.name := "Desk Lamp"; Types.category := "home decor";
     Types.confidence := 0.8%float;
     Types.box := {| Types.ymin := 0%float; Types.xmin := 0%float;
                     Types.ymax := 500%float; Types.xmax := 250%float |};
     Types.shoppingLink := "https://www.google.com/search?q=buy+Desk%20Lamp" |}.

Definition shoe_browser : VideoPlayer.Browser :=
  browser ready_video jpeg (ret {| Types.products := [sample_product] |}).

Definition lamp_browser : VideoPlayer.Browser :=
  browser ready_video jpeg (ret {| Types.products := [other_product] |}).

End Samples.

(* ===================================================================== *)
(** * Properties                                                           *)
(* ===================================================================== *)

Import DOM Effects Types Samples.

(** ** Strings *)

Example toLowerCase_mixed : toLowerCase "Fashion SHOE" = "fashion shoe".
Proof. reflexivity. Qed.

Example encode_name :
  encodeURIComponent "Air Max 90 & co" = "Air%20Max%2090%20%26%20co".
Proof. reflexivity. Qed.

Example split_data_url :
  split "," "data:image/jpeg;base64,AAAA" = ["data:image/jpeg;base64"; "AAAA"].
Proof. reflexivity. Qed.

Example toFixed_1_samples :
  toFixed_1 (1 # 20) = "0.1" /\ toFixed_1 (26 # 10) = "2.6"
  /\ toFixed_1 (-(5 # 4)) = "-1.3" /\ toFixed_1 200 = "200.0".
Proof. repeat split; reflexivity. Qed.

Lemma lower_ascii_idempotent (c : ascii) : lower_ascii (lower_ascii c) = lower_ascii c.
Proof.
  destruct c as [[] [] [] [] [] [] [] []]; reflexivity.
Qed.

Lemma toLowerCase_idempotent (s : string) : toLowerCase (toLowerCase s) = toLowerCase s.
Proof.
  induction s as [| c s IH]; simpl.
  - reflexivity.
  - now rewrite lower_ascii_idempotent, IH.
Qed.

Lemma append_assoc (s t u : string) : (s ++ t) ++ u = s ++ t ++ u.
Proof.
  induction s as [| c s IH]; simpl; [reflexivity | now rewrite IH].
Qed.

Lemma prefix_app (p s : string) : String.prefix p (p ++ s) = true.
Proof.
  induction p as [| c p IH]; simpl.
  - now destruct s.
  - destruct (ascii_dec c c) as [_ | ne]; [exact IH | now elim ne].
Qed.

Lemma includes_prefix (s sub : string) :
  String.prefix sub s = true -> includes s sub = true.
Proof.
  intros H. destruct s; cbn [includes]; rewrite H; reflexivity.
Qed.

Lemma includes_app (a b c : string) : includes (a ++ b ++ c) b = true.
Proof.
  induction a as [| x a IH]; simpl.
  - apply includes_prefix, prefix_app.
  - rewrite IH. apply orb_true_r.
Qed.

Lemma ends_with_any_nocase_app (stem ext : string) (suffixes : list string) :
  In (toLowerCase ext) suffixes ->
  ends_with_any_nocase (stem ++ ext) suffixes = true.
Proof.
  intros Hin. induction stem as [| c stem IH]; simpl.
  - assert (Hex : existsb (eqb_nocase ext) suffixes = true).
    { apply existsb_exists. exists (toLowerCase ext). split; [exact Hin |].
      unfold eqb_nocase. apply String.eqb_refl. }
    destruct ext; simpl in *; rewrite Hex; reflexivity.
  - rewrite IH. apply orb_true_r.
Qed.

(** ** The overlay renderer *)

(** C1.  When the overlay is drawn (not processing), the product at
    position [i] of the list gets the rectangle at position [i], and that
    rectangle has top = ymin/10, left = xmin/10, width = (xmax - xmin)/10
    and height = (ymax - ymin)/10, in percent, each computed in binary64
    as the source computes it; there is one rectangle per product.  For
    the box [100, 200, 400, 600] these are 10, 20, 40 and 30 percent. *)
Theorem overlay_geometry (products : list DetectedProduct) (i : nat)
    (product : DetectedProduct) :
  nth_error products i = Some product ->
  let drawn := DetectionOverlay.rectangles
                 (DetectionOverlay.DetectionOverlay products false) in
  length drawn = length products /\
  exists r,
    nth_error drawn i = Some r /\
    DetectionOverlay.top (DetectionOverlay.style r)
      = (ymin (box product) / 10)%float /\
    DetectionOverlay.left (DetectionOverlay.style r)
      = (xmin (box product) / 10)%float /\
    DetectionOverlay.width (DetectionOverlay.style r)
      = ((xmax (box product) - xmin (box product)) / 10)%float /\
    DetectionOverlay.height (DetectionOverlay.style r)
      = ((ymax (box product) - ymin (box product)) / 10)%float /\
    (box product = sample_box ->
       DetectionOverlay.top (DetectionOverlay.style r) = 10%float /\
       DetectionOverlay.left (DetectionOverlay.style r) = 20%float /\
       DetectionOverlay.width (DetectionOverlay.style r) = 40%float /\
       DetectionOverlay.height (DetectionOverlay.style r) = 30%float).
Proof.
  intros Hnth drawn.
  assert (Hdrawn : drawn = map DetectionOverlay.rectangle products).
  { subst drawn. unfold DetectionOverlay.DetectionOverlay.
    destruct products as [| p ps]; [now destruct i | reflexivity]. }
  rewrite Hdrawn. split; [apply length_map |].
  exists (DetectionOverlay.rectangle product). split.
  - now apply map_nth_error.
  - do 4 (split; [reflexivity |]).
    intros Hbox. unfold DetectionOverlay.rectangle. cbn [DetectionOverlay.style
      DetectionOverlay.top DetectionOverlay.left DetectionOverlay.width
      DetectionOverlay.height].
    rewrite Hbox. repeat split.
Qed.

Lemma overlay_geometry_witness :
  let drawn := DetectionOverlay.rectangles
                 (DetectionOverlay.DetectionOverlay [sample_product] false) in
  length drawn = 1%nat /\
  exists r,
    nth_error drawn 0 = Some r /\
    DetectionOverlay.top (DetectionOverlay.style r) = (100 / 10)%float /\
    DetectionOverlay.left (DetectionOverlay.style r) = (200 / 10)%float /\
    DetectionOverlay.width (DetectionOverlay.style r) = ((600 - 200) / 10)%float /\
    DetectionOverlay.height (DetectionOverlay.style r) = ((400 - 100) / 10)%float /\
    (sample_box = sample_box ->
       DetectionOverlay.top (DetectionOverlay.style r) = 10%float /\
       DetectionOverlay.left (DetectionOverlay.style r) = 20%float /\
       DetectionOverlay.width (DetectionOverlay.style r) = 40%float /\
       DetectionOverlay.height (DetectionOverlay.style r) = 30%float).
Proof.
  apply (overlay_geometry [sample_product] 0 sample_product). reflexivity.
Defined.

(** The division and the subtraction round: for the box
    [0.1, 0.1, 0.3, 0.3] the width is the double printed as
    0.019999999999999997, not the one printed as 0.02. *)
Example fractional_box_width :
  let s := DetectionOverlay.style (DetectionOverlay.rectangle fractional_product) in
  DetectionOverlay.width s = 0.019999999999999997%float /\
  PrimFloat.eqb (DetectionOverlay.width s) 0.02%float = false /\
  DetectionOverlay.top s = 0.01%float.
Proof. repeat split. Qed.

(** While a frame is analysed the overlay is the loading indicator,
    whatever the list holds. *)
Lemma overlay_while_processing (products : list DetectedProduct) :
  DetectionOverlay.DetectionOverlay products true = DetectionOverlay.AnalyzingFrame.
Proof. reflexivity. Qed.

(** ** Play *)

(** C7.  From every view state, the play handler leaves the detection list
    empty and the error message null (and marks the player as playing). *)
Theorem play_clears_detections_and_error (st : App.State) :
  let st' := App.after st VideoPlayer.handlePlay in
  App.detections st' = [] /\ App.error st' = None /\ App.isPaused st' = false.
Proof. repeat split. Qed.

(** Nothing else changes on play. *)
Lemma play_keeps_the_rest (st : App.State) :
  let st' := App.after st VideoPlayer.handlePlay in
  App.videoSrc st' = App.videoSrc st /\ App.isProcessing st' = App.isProcessing st
  /\ App.hasUploaded st' = App.hasUploaded st.
Proof. repeat split. Qed.

(** ** Upload validation *)

Ltac run_upload :=
  unfold App.after, Observe.accepted, trace, App.handleFileUpload,
         io_bind, io_try_catch, emit, call, io_ret, io_throw;
  simpl.

(** Case analysis on every test the goal still branches on. *)
Ltac break_tests :=
  repeat (match goal with
          | |- context [if ?b then _ else _] => destruct b
          | |- context [match ?x with inl _ => _ | inr _ => _ end] => destruct x
          | |- context [match ?x with EmptyString => _ | String _ _ => _ end] =>
              destruct x
          end; cbn).

Lemma tenths_of_MB_nearest (n : N) :
  (2097152 * Observe.tenths_of_MB n <= 20 * n + 1048576 < 2097152 * (Observe.tenths_of_MB n + 1))%N.
Proof.
  unfold Observe.tenths_of_MB.
  pose proof (N.div_mod (20 * n + 1048576) 2097152 ltac:(discriminate)) as Hdm.
  pose proof (N.mod_lt (20 * n + 1048576) 2097152 ltac:(discriminate)) as Hlt.
  set (q := (_ / _)%N) in *. set (r := (_ mod _)%N) in *. clearbody q r.
  lia.
Qed.

Lemma toFixed_1_of_bytes (n : N) :
  toFixed_1 (inject_Z (Z.of_N n) / inject_Z (1024 * 1024))
  = decimal (Observe.tenths_of_MB n / 10) ++ "." ++ decimal (Observe.tenths_of_MB n mod 10).
Proof.
  unfold toFixed_1.
  set (x := (inject_Z (Z.of_N n) / inject_Z (1024 * 1024))%Q).
  assert (Hx : (0 <= x)%Q).
  { subst x. unfold Qle, Qdiv, Qmult, Qinv, inject_Z. simpl. lia. }
  destruct (Qlt_le_dec x 0) as [Hneg | _].
  { exfalso. apply (Qlt_not_le _ _ Hneg Hx). }
  assert (Hfloor : Qfloor (Qabs x * 10 + (1 # 2)) = Z.of_N (Observe.tenths_of_MB n)).
  { rewrite (Qfloor_comp (Qabs x * 10 + (1 # 2))
                         ((20 * Z.of_N n + 1048576) # 2097152)).
    - unfold Observe.tenths_of_MB. cbn [Qfloor]. rewrite N2Z.inj_div. f_equal. lia.
    - rewrite (Qabs_pos x Hx). subst x.
      change (1024 * 1024)%Z with 1048576%Z.
      unfold Qeq, Qdiv, Qmult, Qplus, Qinv, inject_Z.
      cbn -[Z.mul Z.add Z.of_N]. lia. }
  rewrite Hfloor, N2Z.id. reflexivity.
Qed.

Lemma actualSizeMB_tenths (file : File) :
  App.actualSizeMB file
  = decimal (Observe.tenths_of_MB (size file) / 10) ++ "."
      ++ decimal (Observe.tenths_of_MB (size file) mod 10).
Proof. apply toFixed_1_of_bytes. Qed.

(** The format check comes first: a file that fails it gets the format
    message whatever its size. *)
Lemma format_check_first (createObjectURL : File -> exc string) (st : App.State)
    (file : File) :
  App.isVideoMime file || App.hasVideoExtension file = false ->
  trace (App.handleFileUpload createObjectURL st (Some file))
  = [setError None; setError (Some (App.unsupported_format_message file))].
Proof.
  intros H. apply orb_false_elim in H as [Hm He].
  unfold trace, App.handleFileUpload. rewrite Hm, He. reflexivity.
Qed.

(** C3, as stated, fails: an empty file that is no video by type or by
    name is turned away with the format message, not the empty-file one. *)
Lemma empty_text_file_gets_format_message :
  size notes_txt = 0%N /\
  App.error (App.after App.initial
               (App.handleFileUpload blob_url App.initial (Some notes_txt)))
  = Some (App.unsupported_format_message notes_txt) /\
  App.unsupported_format_message notes_txt <> App.empty_file_message.
Proof.
  split; [reflexivity | split; [reflexivity | discriminate]].
Qed.

(** C3, amended.  A file of 0 bytes is always rejected: the player's
    source stays as it was and an error is shown.  The error is the
    empty-file message when the file passes the format check (a MIME type
    starting with video/, or a video extension), and the format message
    otherwise. *)
Theorem empty_file_rejected (createObjectURL : File -> exc string)
    (st : App.State) (file : File) :
  size file = 0%N ->
  let h := App.handleFileUpload createObjectURL st (Some file) in
  Observe.accepted (trace h) = false /\
  App.videoSrc (App.after st h) = App.videoSrc st /\
  App.error (App.after st h)
  = Some (if App.isVideoMime file || App.hasVideoExtension file
          then App.empty_file_message
          else App.unsupported_format_message file).
Proof.
  intros Hsize h. subst h. run_upload. rewrite Hsize.
  destruct (App.isVideoMime file), (App.hasVideoExtension file);
    simpl; repeat split.
Qed.

Lemma empty_file_rejected_witness :
  let h := App.handleFileUpload blob_url App.initial (Some empty_mp4) in
  Observe.accepted (trace h) = false /\
  App.videoSrc (App.after App.initial h) = App.SAMPLE_VIDEO /\
  App.error (App.after App.initial h) = Some App.empty_file_message.
Proof.
  apply (empty_file_rejected blob_url App.initial empty_mp4). reflexivity.
Defined.

(** C6, as stated, fails: 200 MB of text is turned away, but with the
    format message, which does not show the size. *)
Lemma big_text_file_message_lacks_size :
  (App.MAX_FILE_SIZE_MB * 1024 * 1024 < size big_txt)%N /\
  App.actualSizeMB big_txt = "200.0" /\
  exists msg,
    App.error (App.after App.initial
                 (App.handleFileUpload blob_url App.initial (Some big_txt)))
    = Some msg /\
    includes msg (App.actualSizeMB big_txt) = false.
Proof.
  split; [reflexivity | split; [reflexivity |]].
  exists (App.unsupported_format_message big_txt). split; reflexivity.
Qed.

(** C6, amended.  A file of more than 100 MB is always rejected.  When it
    passes the format check the error is the too-large message, which
    contains the size in MB: the bytes divided by 1024 * 1024, rounded to
    the nearest tenth and printed with one decimal.  When it fails the
    format check the error is the format message. *)
Theorem oversized_file_rejected (createObjectURL : File -> exc string)
    (st : App.State) (file : File) :
  (App.MAX_FILE_SIZE_MB * 1024 * 1024 < size file)%N ->
  let h := App.handleFileUpload createObjectURL st (Some file) in
  Observe.accepted (trace h) = false /\
  App.videoSrc (App.after st h) = App.videoSrc st /\
  App.error (App.after st h)
  = Some (if App.isVideoMime file || App.hasVideoExtension file
          then App.too_large_message file
          else App.unsupported_format_message file) /\
  includes (App.too_large_message file) (App.actualSizeMB file ++ "MB") = true /\
  App.actualSizeMB file
  = decimal (Observe.tenths_of_MB (size file) / 10) ++ "."
      ++ decimal (Observe.tenths_of_MB (size file) mod 10).
Proof.
  intros Hsize h.
  assert (Hnz : (size file =? 0)%N = false) by (apply N.eqb_neq; lia).
  assert (Hbig : (App.MAX_FILE_SIZE_MB * 1024 * 1024 <? size file)%N = true)
    by (apply N.ltb_lt; exact Hsize).
  assert (Htrace : trace h
    = [setError None;
       setError (Some (if App.isVideoMime file || App.hasVideoExtension file
                       then App.too_large_message file
                       else App.unsupported_format_message file))]).
  { subst h. unfold trace, App.handleFileUpload.
    destruct (App.isVideoMime file), (App.hasVideoExtension file);
      cbn [negb andb orb]; rewrite ?Hnz, ?Hbig; reflexivity. }
  unfold App.after. rewrite Htrace.
  split; [reflexivity | split; [reflexivity | split; [reflexivity | split]]].
  - unfold App.too_large_message.
    replace ("File is too large (" ++ App.actualSizeMB file
               ++ "MB). Please select a video smaller than "
               ++ decimal App.MAX_FILE_SIZE_MB ++ "MB to ensure smooth analysis.")
      with ("File is too large (" ++ (App.actualSizeMB file ++ "MB")
               ++ "). Please select a video smaller than "
               ++ decimal App.MAX_FILE_SIZE_MB ++ "MB to ensure smooth analysis.")
      by (rewrite append_assoc; reflexivity).
    apply includes_app.
  - apply actualSizeMB_tenths.
Qed.

Lemma oversized_file_rejected_witness :
  let h := App.handleFileUpload blob_url App.initial (Some big_mkv) in
  Observe.accepted (trace h) = false /\
  App.videoSrc (App.after App.initial h) = App.SAMPLE_VIDEO /\
  App.error (App.after App.initial h)
  = Some "File is too large (200.0MB). Please select a video smaller than 100MB to ensure smooth analysis." /\
  includes (App.too_large_message big_mkv) "200.0MB" = true /\
  App.actualSizeMB big_mkv = "200.0".
Proof.
  apply (oversized_file_rejected blob_url App.initial big_mkv). reflexivity.
Defined.

Lemma startsWith_iff (s p : string) :
  startsWith s p = true <-> exists rest, s = p ++ rest.
Proof.
  unfold startsWith. revert s. induction p as [| c p IH]; intros s.
  - split; [intros _; now exists s | intros _; now destruct s].
  - destruct s as [| d s]; cbn [String.prefix].
    + split; [discriminate | intros [rest H]; discriminate].
    + destruct (ascii_dec c d) as [e | ne].
      * subst d. split.
        -- intros H. apply IH in H as [rest ->]. now exists rest.
        -- intros [rest H]. apply IH. exists rest. now injection H.
      * split; [discriminate |].
        intros [rest H]. injection H. intros _ E. now elim ne.
Qed.

Lemma ends_with_any_nocase_iff (s : string) (suffixes : list string) :
  ends_with_any_nocase s suffixes = true
  <-> exists stem ext, s = stem ++ ext /\ In (toLowerCase ext) suffixes.
Proof.
  split.
  - induction s as [| c s IH]; cbn [ends_with_any_nocase]; intros H;
      apply orb_true_iff in H as [H | H].
    + apply existsb_exists in H as [x [Hin Hx]]. apply String.eqb_eq in Hx.
      exists "", "". split; [reflexivity | now rewrite Hx].
    + discriminate.
    + apply existsb_exists in H as [x [Hin Hx]]. apply String.eqb_eq in Hx.
      exists "", (String c s). split; [reflexivity | now rewrite Hx].
    + destruct (IH H) as [stem [ext [-> Hin]]].
      exists (String c stem), ext. split; [reflexivity | exact Hin].
  - intros [stem [ext [-> Hin]]]. now apply ends_with_any_nocase_app.
Qed.

(** What the format check of the upload tests: the MIME type starts with
    video/, or the name ends in a video extension in any mix of cases. *)
Lemma format_check_iff (file : File) :
  App.isVideoMime file || App.hasVideoExtension file = true
  <-> (exists rest, type file = "video/" ++ rest)
      \/ (exists stem ext, DOM.name file = stem ++ ext
                           /\ In (toLowerCase ext) [".mp4"; ".webm"; ".ogg"; ".mov"; ".mkv"]).
Proof.
  rewrite orb_true_iff. unfold App.isVideoMime, App.hasVideoExtension.
  rewrite startsWith_iff, ends_with_any_nocase_iff. reflexivity.
Qed.

(** C10, as stated, fails: a .mov file with a video MIME type passes the
    format check and is still not accepted when it is empty. *)
Lemma empty_mov_not_accepted :
  App.isVideoMime empty_mov = true /\
  App.hasVideoExtension empty_mov = true /\
  let h := App.handleFileUpload blob_url App.initial (Some empty_mov) in
  Observe.accepted (trace h) = false /\
  App.error (App.after App.initial h) = Some App.empty_file_message /\
  App.videoSrc (App.after App.initial h) = App.SAMPLE_VIDEO.
Proof. repeat split. Qed.

(** C10, amended.  A file passes the format check of upload validation
    (it is not turned away with the unsupported-format message) exactly
    when its MIME type starts with video/ or its name ends in one of
    .mp4, .webm, .ogg, .mov, .mkv, case ignored; so a .mov or .mkv file
    passes it although the message names only MP4, WebM and OGG, and a
    file with a video MIME type passes it under any name.  The upload is
    accepted exactly when the file passes the format check, is not empty,
    is at most 100 MB, and the browser creates the object URL. *)
Theorem upload_validation (createObjectURL : File -> exc string)
    (st : App.State) (file : File) :
  let h := App.handleFileUpload createObjectURL st (Some file) in
  let video_type := exists rest, type file = "video/" ++ rest in
  let video_name :=
    exists stem ext, DOM.name file = stem ++ ext
                     /\ In (toLowerCase ext) [".mp4"; ".webm"; ".ogg"; ".mov"; ".mkv"] in
  (App.error (App.after st h) = Some (App.unsupported_format_message file)
     <-> ~ (video_type \/ video_name)) /\
  (Observe.accepted (trace h) = true
     <-> (video_type \/ video_name) /\ size file <> 0%N
         /\ (size file <= 100 * 1024 * 1024)%N
         /\ Observe.url_created (createObjectURL file) = true) /\
  (forall stem, DOM.name file = stem ++ ".mov" \/ DOM.name file = stem ++ ".mkv" ->
     App.error (App.after st h) <> Some (App.unsupported_format_message file)) /\
  (video_type ->
     App.error (App.after st h) <> Some (App.unsupported_format_message file)).
Proof.
  intros h video_type video_name.
  assert (Hfmt : App.isVideoMime file || App.hasVideoExtension file = true
                 <-> video_type \/ video_name) by apply format_check_iff.
  assert (Hmsg : App.error (App.after st h) = Some (App.unsupported_format_message file)
                 <-> App.isVideoMime file || App.hasVideoExtension file = false).
  { subst h. run_upload.
    destruct (App.isVideoMime file), (App.hasVideoExtension file); cbn [negb andb orb];
      try (cbn; split; reflexivity);
      (split; [| discriminate]); break_tests; discriminate. }
  assert (Hacc : Observe.accepted (trace h)
                 = (App.isVideoMime file || App.hasVideoExtension file)
                   && negb (size file =? 0)%N
                   && negb (104857600 <? size file)%N
                   && Observe.url_created (createObjectURL file)).
  { subst h. unfold Observe.url_created. run_upload.
    destruct (App.isVideoMime file), (App.hasVideoExtension file); cbn [negb andb orb];
      try reflexivity;
      destruct (size file =? 0)%N; try reflexivity;
      destruct (104857600 <? size file)%N; try reflexivity;
      destruct (createObjectURL file) as [e | [| c url]]; break_tests; reflexivity. }
  assert (Hpass : video_type \/ video_name ->
                  App.error (App.after st h) <> Some (App.unsupported_format_message file)).
  { intros Hv Herr. apply Hmsg in Herr. apply Hfmt in Hv. congruence. }
  split; [| split; [| split]].
  - rewrite Hmsg, <- Hfmt. destruct (App.isVideoMime file || App.hasVideoExtension file);
      split; congruence.
  - rewrite Hacc, !andb_true_iff, !negb_true_iff, Hfmt, N.eqb_neq, N.ltb_ge.
    change (100 * 1024 * 1024)%N with 104857600%N. tauto.
  - intros stem Hname. apply Hpass. right.
    destruct Hname as [Hname | Hname].
    + exists stem, ".mov". split; [exact Hname | simpl; tauto].
    + exists stem, ".mkv". split; [exact Hname | simpl; tauto].
  - intros Hv. apply Hpass. now left.
Qed.

(** The same check accepts upper-case extensions and rejects a video
    extension that is not the end of the name. *)
Example extension_samples :
  App.hasVideoExtension big_mkv = true /\
  App.hasVideoExtension {| DOM.name := "clip.mov.txt"; type := ""; size := 1 |} = false /\
  App.isVideoMime {| DOM.name := "clip"; type := "video/x-matroska"; size := 1 |} = true /\
  App.isVideoMime {| DOM.name := "clip"; type := "VIDEO/mp4"; size := 1 |} = false.
Proof. repeat split. Qed.

(** A valid upload replaces the source and clears detections and error. *)
Example small_webm_accepted :
  App.after App.initial (App.handleFileUpload blob_url App.initial (Some small_webm))
  = {| App.videoSrc := "blob:http://localhost/1"; App.detections := [];
       App.isProcessing := false; App.hasUploaded := true; App.error := None;
       App.isPaused := true |}.
Proof. reflexivity. Qed.

(** ** The detection client *)

Import GeminiService.

Lemma lookup_set_prop (key : string) (v : value) (props : list (string * value)) :
  lookup key (set_prop key v props) = Some v.
Proof.
  induction props as [| [k x] rest IH]; simpl.
  - now rewrite String.eqb_refl.
  - destruct (String.eqb k key) eqn:E; simpl; rewrite E; [reflexivity | exact IH].
Qed.

Lemma lookup_set_prop_other (key key' : string) (v : value)
    (props : list (string * value)) :
  key <> key' -> lookup key' (set_prop key v props) = lookup key' props.
Proof.
  intros Hne. induction props as [| [k x] rest IH]; simpl.
  - destruct (String.eqb key key') eqn:E; [| reflexivity].
    apply String.eqb_eq in E. contradiction.
  - destruct (String.eqb k key) eqn:E; simpl.
    + apply String.eqb_eq in E. subst k.
      destruct (String.eqb key key') eqn:E'; [| reflexivity].
      apply String.eqb_eq in E'. contradiction.
    + destruct (String.eqb k key'); [reflexivity | exact IH].
Qed.

(** The keys of the table resolve to their own URLs, in any case. *)
Example base_url_known :
  base_url_for (toLowerCase "Fashion") = Some (Own "https://www.amazon.com/s?k=") /\
  base_url_for (toLowerCase "SHOE") = Some (Own "https://www.nike.com/w?q=") /\
  base_url_for (toLowerCase "electronics")
    = Some (Own "https://www.bestbuy.com/site/searchpage.jsp?st=") /\
  base_url_for (toLowerCase "Home Decor") = Some (Own "https://www.google.com/search?q=buy+").
Proof. repeat split. Qed.

(** The lookup sees a category through its lower-case form only. *)
Lemma base_url_case_insensitive (category : string) :
  base_url_for (toLowerCase (toLowerCase category)) = base_url_for (toLowerCase category).
Proof. now rewrite toLowerCase_idempotent. Qed.

(** A key that is neither in the table nor a member of [Object.prototype]
    falls back to the default URL. *)
Lemma base_url_default (key : string) :
  lookup key SEARCH_BASE_URLS = None ->
  existsb (String.eqb key) Object_prototype = false ->
  base_url_for key = Some (Own "https://www.google.com/search?q=buy+").
Proof.
  intros Hown Hproto. unfold base_url_for, SEARCH_BASE_URLS_get.
  rewrite Hown, Hproto. reflexivity.
Qed.

(** The mapper on a product with a string category, an array box and a
    string name without unpaired surrogate: the box is read by position
    and the link is the base URL followed by the encoded name. *)
Lemma map_product_link (h : Host) (props : list (string * value))
    (category name : string) (coordinates : list value) :
  lookup "category" props = Some (VString category) ->
  lookup "box" props = Some (VArray coordinates) ->
  lookup "name" props = Some (VString name) ->
  has_lone_surrogate name = false ->
  exists props',
    map_product h (VObject props) = ret (VObject props') /\
    lookup "shoppingLink" props'
    = Some (VString (entry_to_string (base_url_for (toLowerCase category))
                       ++ encodeURIComponent name)) /\
    lookup "box" props'
    = Some (VObject [ ("ymin", nth 0 coordinates VUndefined);
                      ("xmin", nth 1 coordinates VUndefined);
                      ("ymax", nth 2 coordinates VUndefined);
                      ("xmax", nth 3 coordinates VUndefined) ]).
Proof.
  intros Hc Hb Hn Hwf. eexists. split.
  - unfold map_product, get. rewrite Hc, Hb, Hn. cbn.
    unfold call_encodeURIComponent. rewrite Hwf. reflexivity.
  - split.
    + apply lookup_set_prop.
    + rewrite lookup_set_prop_other by discriminate. apply lookup_set_prop.
Qed.

(** An answer whose products field is no array gives the empty list. *)
Lemma detectProducts_no_array (h : Host) (image : option string)
    (answer : string) (result products_field : value) :
  generateContent h image = ret {| text := Some answer |} ->
  answer <> "" ->
  JSON_parse h answer = ret result ->
  get result "products" = ret products_field ->
  isArray products_field = false ->
  detectProducts h image = ret {| products := [] |}.
Proof.
  intros Hgen Hne Hparse Hget Harr.
  unfold detectProducts. rewrite Hgen. cbn [bind ret text].
  destruct answer as [| c rest]; [contradiction |].
  rewrite Hparse. cbn [bind ret]. rewrite Hget. cbn [bind ret].
  rewrite Harr. cbn [negb]. rewrite orb_true_r. reflexivity.
Qed.

(** An empty array of products gives the empty list as well. *)
Lemma detectProducts_empty_array (h : Host) (image : option string)
    (answer : string) (result : value) :
  generateContent h image = ret {| text := Some answer |} ->
  answer <> "" ->
  JSON_parse h answer = ret result ->
  get result "products" = ret (VArray []) ->
  detectProducts h image = ret {| products := [] |}.
Proof.
  intros Hgen Hne Hparse Hget.
  unfold detectProducts. rewrite Hgen. cbn [bind ret text].
  destruct answer as [| c rest]; [contradiction |].
  rewrite Hparse. cbn [bind ret]. rewrite Hget. reflexivity.
Qed.

(** An empty or absent answer text fails the call. *)
Lemma detectProducts_empty_text (h : Host) (image : option string)
    (answer : option string) :
  generateContent h image = ret {| text := answer |} ->
  truthy_string answer = false ->
  detectProducts h image = throw_new_Error "The AI model returned an empty response.".
Proof.
  intros Hgen Hempty. unfold detectProducts. rewrite Hgen. cbn [bind ret text].
  destruct answer as [[| c rest] |]; [reflexivity | discriminate | reflexivity].
Qed.

(** C2, as stated, fails: the answer [{"products":[{}]}] is not empty and
    parses, its one product lacks every expected field, and the call
    raises instead of returning zero detections; so does the answer
    [null]. *)
Lemma bare_product_raises :
  bare_product_text <> "" /\
  detectProducts (host_answering (Some bare_product_text) bare_product_response)
                 (Some "AAAA")
  = throw_new_Error "Cannot read properties of undefined (reading 'toLowerCase')" /\
  detectProducts (host_answering (Some "null") VNull) (Some "AAAA")
  = throw_new_Error "Cannot read properties of null (reading 'products')".
Proof.
  split; [discriminate | split; reflexivity].
Qed.

(** C2, amended.  For a non-empty answer that parses to a value on which
    the products field can be read (any value but null), if that field is
    missing or is not an array, [detectProducts] returns zero detections
    and raises nothing.  An answer text that is empty or absent makes the
    call fail with the empty-response error. *)
Theorem malformed_product_list_degrades (h : Host) (image : option string) :
  (forall answer result products_field,
      generateContent h image = ret {| text := Some answer |} ->
      answer <> "" ->
      JSON_parse h answer = ret result ->
      get result "products" = ret products_field ->
      isArray products_field = false ->
      detectProducts h image = ret {| products := [] |}) /\
  (forall answer,
      generateContent h image = ret {| text := answer |} ->
      answer = None \/ answer = Some "" ->
      detectProducts h image
      = throw_new_Error "The AI model returned an empty response.").
Proof.
  split.
  - intros answer result products_field. apply detectProducts_no_array.
  - intros answer Hgen Hempty. apply (detectProducts_empty_text h image answer Hgen).
    destruct Hempty as [-> | ->]; reflexivity.
Qed.

Lemma malformed_product_list_degrades_witness :
  detectProducts (host_answering (Some string_products_text) string_products_response)
                 (Some "AAAA")
  = ret {| products := [] |} /\
  detectProducts (host_answering (Some "") VNull) (Some "AAAA")
  = throw_new_Error "The AI model returned an empty response.".
Proof.
  split.
  - apply (proj1 (malformed_product_list_degrades
                    (host_answering (Some string_products_text) string_products_response)
                    (Some "AAAA"))
             string_products_text string_products_response (VString "none"));
      [reflexivity | discriminate | reflexivity | reflexivity | reflexivity].
  - apply (proj2 (malformed_product_list_degrades
                    (host_answering (Some "") VNull) (Some "AAAA"))
             (Some ""));
      [reflexivity | right; reflexivity].
Defined.

(** What else makes the call fail: an answer the parser rejects.  The
    handler passes the parser's message on. *)
Lemma detectProducts_unparsable (h : Host) (image : option string)
    (answer : string) (e : exn) :
  generateContent h image = ret {| text := Some answer |} ->
  answer <> "" ->
  JSON_parse h answer = throw e ->
  exists msg, detectProducts h image = throw_new_Error msg.
Proof.
  intros Hgen Hne Hparse. unfold detectProducts. rewrite Hgen. cbn [bind ret text].
  destruct answer as [| c rest]; [contradiction |].
  rewrite Hparse. cbn [bind throw try_catch].
  destruct (message_includes e "API_KEY"); eexists; reflexivity.
Qed.

(** C4: the code at the category constructor.  The key is not in the
    table, yet the lookup finds the member [constructor] that the table
    inherits from [Object.prototype]; that value is truthy, so the default
    is not taken, and the link is the printed function followed by the
    encoded name instead of the default search URL followed by it. *)
Theorem constructor_category_link (h : Host) :
  lookup (toLowerCase "constructor") SEARCH_BASE_URLS = None /\
  base_url_for (toLowerCase "constructor") = Some (Inherited "constructor") /\
  base_url_for (toLowerCase "constructor") <> SEARCH_BASE_URLS_get "default" /\
  exists props',
    map_product h constructor_object = ret (VObject props') /\
    lookup "shoppingLink" props'
    = Some (VString "function Object() { [native code] }Air%20Max%2090") /\
    lookup "shoppingLink" props'
    <> Some (VString ("https://www.google.com/search?q=buy+"
                        ++ encodeURIComponent "Air Max 90")).
Proof.
  split; [reflexivity | split; [reflexivity | split; [discriminate |]]].
  eexists. split; [reflexivity | split; [reflexivity | discriminate]].
Qed.

(** The other key of this kind that is its own lower-case form. *)
Example proto_category_link :
  base_url_for (toLowerCase "__PROTO__") = Some (Inherited "__proto__") /\
  entry_to_string (base_url_for (toLowerCase "__PROTO__")) = "[object Object]".
Proof. split; reflexivity. Qed.

(** C5.  When the answer is an object whose products field is missing or
    is the empty list, [detectProducts] returns the empty product list;
    the overlay of an empty list, when not processing, is null, and it
    holds no rectangle while processing either; so once the list is handed
    to the view and processing has ended, no rectangle is on screen. *)
Theorem no_products_no_overlay (h : Host) (image : option string)
    (answer : string) (props : list (string * value)) :
  generateContent h image = ret {| text := Some answer |} ->
  answer <> "" ->
  JSON_parse h answer = ret (VObject props) ->
  lookup "products" props = None \/ lookup "products" props = Some (VArray []) ->
  detectProducts h image = ret {| products := [] |} /\
  asDetectionResponse {| products := [] |} = Some {| products := [] |} /\
  DetectionOverlay.DetectionOverlay [] false = DetectionOverlay.Null /\
  (forall isProcessing,
     DetectionOverlay.rectangles (DetectionOverlay.DetectionOverlay [] isProcessing) = []) /\
  forall st,
    DetectionOverlay.rectangles
      (App.overlay (App.run st [VideoPlayer.onDetections [];
                                VideoPlayer.onProcessing false])) = [].
Proof.
  intros Hgen Hne Hparse Hprod.
  split; [| split; [reflexivity | split; [reflexivity | split]]];
    [| intros []; reflexivity | reflexivity].
  destruct Hprod as [Hmissing | Hempty].
  - apply (detectProducts_no_array h image answer (VObject props) VUndefined);
      try assumption; [| reflexivity].
    unfold get. now rewrite Hmissing.
  - apply (detectProducts_empty_array h image answer (VObject props));
      try assumption.
    unfold get. now rewrite Hempty.
Qed.

Lemma no_products_no_overlay_witness :
  detectProducts (host_answering (Some no_products_text) no_products_response)
                 (Some "AAAA")
  = ret {| products := [] |} /\
  asDetectionResponse {| products := [] |} = Some {| products := [] |} /\
  DetectionOverlay.DetectionOverlay [] false = DetectionOverlay.Null /\
  (forall isProcessing,
     DetectionOverlay.rectangles (DetectionOverlay.DetectionOverlay [] isProcessing) = []) /\
  forall st,
    DetectionOverlay.rectangles
      (App.overlay (App.run st [VideoPlayer.onDetections [];
                                VideoPlayer.onProcessing false])) = [].
Proof.
  apply (no_products_no_overlay
           (host_answering (Some no_products_text) no_products_response)
           (Some "AAAA") no_products_text [("items", VArray [])]);
    [reflexivity | discriminate | reflexivity | left; reflexivity].
Defined.

(** ** Frame capture *)

Ltac run_capture :=
  unfold VideoPlayer.captureFrame, io_try_finally, io_try_catch, io_bind,
         emit, call, io_ret, io_throw.

(** C8.  On a mounted player whose canvas gives a drawing context: if the
    intrinsic width or height of the video is zero, the capture does one
    thing, reporting the invalid-dimensions error, so no detection request
    is issued; and if the frame is drawn and its serialization throws (the
    canvas is tainted by a cross-origin source), the capture reports the
    CORS message and issues no detection request either. *)
Theorem capture_failures (w : VideoPlayer.Browser) (video : Video) (canvas : Canvas) :
  VideoPlayer.videoRef_current w = Some video ->
  VideoPlayer.canvasRef_current w = Some canvas ->
  getContext_2d canvas = true ->
  (videoWidth video = 0%N \/ videoHeight video = 0%N ->
     trace (VideoPlayer.captureFrame w)
     = [VideoPlayer.onError (Some VideoPlayer.invalid_dimensions_message)] /\
     existsb Observe.is_detection_request (trace (VideoPlayer.captureFrame w)) = false /\
     forall st,
       App.error (App.after st (VideoPlayer.captureFrame w))
       = Some VideoPlayer.invalid_dimensions_message) /\
  (videoWidth video <> 0%N -> videoHeight video <> 0%N ->
   VideoPlayer.drawImage w = ret tt ->
   forall e, VideoPlayer.toDataURL w = throw e ->
     In (VideoPlayer.onError (Some VideoPlayer.cors_message))
        (trace (VideoPlayer.captureFrame w)) /\
     existsb Observe.is_detection_request (trace (VideoPlayer.captureFrame w)) = false /\
     forall st,
       App.error (App.after st (VideoPlayer.captureFrame w))
       = Some VideoPlayer.cors_message).
Proof.
  intros Hvideo Hcanvas Hctx. split.
  - intros Hzero.
    assert (Htest : (videoWidth video =? 0)%N || (videoHeight video =? 0)%N = true).
    { apply orb_true_iff. destruct Hzero as [H | H]; [left | right];
        now apply N.eqb_eq. }
    assert (Htrace : trace (VideoPlayer.captureFrame w)
                     = [VideoPlayer.onError (Some VideoPlayer.invalid_dimensions_message)]).
    { unfold VideoPlayer.captureFrame. rewrite Hvideo, Hcanvas, Hctx. cbn [negb].
      rewrite Htest. reflexivity. }
    unfold App.after. rewrite Htrace. repeat split.
  - intros Hw Hh Hdraw e Hdata.
    assert (Htest : (videoWidth video =? 0)%N || (videoHeight video =? 0)%N = false).
    { apply orb_false_iff. split; now apply N.eqb_neq. }
    assert (Htrace : trace (VideoPlayer.captureFrame w)
                     = [VideoPlayer.onError None; VideoPlayer.onProcessing true;
                        VideoPlayer.onDetections [];
                        ctx_drawImage (videoWidth video) (videoHeight video);
                        canvas_toDataURL;
                        console_error (Error (Some VideoPlayer.cors_message));
                        VideoPlayer.onError (Some VideoPlayer.cors_message);
                        VideoPlayer.onProcessing false]).
    { run_capture. rewrite Hvideo, Hcanvas, Hctx. cbn [negb].
      rewrite Htest, Hdraw, Hdata. reflexivity. }
    unfold App.after. rewrite Htrace. split; [simpl; tauto | split; reflexivity].
Qed.

Lemma capture_failures_witness :
  (trace (VideoPlayer.captureFrame (browser unloaded_video jpeg (ret {| products := [] |})))
   = [VideoPlayer.onError (Some VideoPlayer.invalid_dimensions_message)] /\
   existsb Observe.is_detection_request
     (trace (VideoPlayer.captureFrame
               (browser unloaded_video jpeg (ret {| products := [] |})))) = false /\
   forall st,
     App.error (App.after st (VideoPlayer.captureFrame
                               (browser unloaded_video jpeg (ret {| products := [] |}))))
     = Some VideoPlayer.invalid_dimensions_message) /\
  (In (VideoPlayer.onError (Some VideoPlayer.cors_message))
      (trace (VideoPlayer.captureFrame
                (browser ready_video tainted (ret {| products := [] |})))) /\
   existsb Observe.is_detection_request
     (trace (VideoPlayer.captureFrame
               (browser ready_video tainted (ret {| products := [] |})))) = false /\
   forall st,
     App.error (App.after st (VideoPlayer.captureFrame
                               (browser ready_video tainted (ret {| products := [] |}))))
     = Some VideoPlayer.cors_message).
Proof.
  split.
  - apply (proj1 (capture_failures
                    (browser unloaded_video jpeg (ret {| products := [] |}))
                    unloaded_video {| getContext_2d := true |}
                    eq_refl eq_refl eq_refl)).
    left. reflexivity.
  - apply (proj2 (capture_failures
                    (browser ready_video tainted (ret {| products := [] |}))
                    ready_video {| getContext_2d := true |}
                    eq_refl eq_refl eq_refl))
      with (e := Error (Some "Tainted canvases may not be exported."));
      [discriminate | discriminate | reflexivity | reflexivity].
Defined.

(** Without a mounted video or canvas, or without a drawing context, the
    capture does nothing at all. *)
Lemma capture_needs_elements (w : VideoPlayer.Browser) :
  VideoPlayer.videoRef_current w = None
  \/ VideoPlayer.canvasRef_current w = None
  \/ VideoPlayer.canvasRef_current w = Some {| getContext_2d := false |} ->
  VideoPlayer.captureFrame w = io_ret tt.
Proof.
  unfold VideoPlayer.captureFrame. intros [H | [H | H]]; rewrite H.
  - reflexivity.
  - now destruct (VideoPlayer.videoRef_current w).
  - now destruct (VideoPlayer.videoRef_current w).
Qed.

(** C9.  A capture that gets past the dimension check starts with
    [onError(null)], [onProcessing(true)], [onDetections([])], ends with
    [onProcessing(false)], and touches the flag nowhere in between; it
    never ends in an exception.  So the flag is up at the detection
    request, if one is made, and down when the cycle ends, whatever the
    canvas and the detection client do. *)
Theorem processing_flag_bracket (w : VideoPlayer.Browser) (video : Video)
    (canvas : Canvas) :
  VideoPlayer.videoRef_current w = Some video ->
  VideoPlayer.canvasRef_current w = Some canvas ->
  getContext_2d canvas = true ->
  videoWidth video <> 0%N ->
  videoHeight video <> 0%N ->
  exists body,
    VideoPlayer.captureFrame w
    = (([VideoPlayer.onError None; VideoPlayer.onProcessing true;
         VideoPlayer.onDetections []] ++ body ++ [VideoPlayer.onProcessing false])%list,
       inr tt) /\
    existsb Observe.sets_processing body = false /\
    (forall st, Observe.requests_while_processing st
                  (trace (VideoPlayer.captureFrame w)) = true) /\
    (forall st, App.isProcessing (App.after st (VideoPlayer.captureFrame w)) = false).
Proof.
  intros Hvideo Hcanvas Hctx Hw Hh.
  assert (Htest : (videoWidth video =? 0)%N || (videoHeight video =? 0)%N = false).
  { apply orb_false_iff. split; now apply N.eqb_neq. }
  run_capture. rewrite Hvideo, Hcanvas, Hctx. cbn [negb]. rewrite Htest.
  unfold App.after, trace.
  destruct (VideoPlayer.drawImage w) as [e | []].
  - exists [ctx_drawImage (videoWidth video) (videoHeight video);
            console_error e;
            VideoPlayer.onError
              (Some (or_default (message e) VideoPlayer.analysis_failed_message))].
    repeat split.
  - destruct (VideoPlayer.toDataURL w) as [e | dataUrl].
    + exists [ctx_drawImage (videoWidth video) (videoHeight video);
              canvas_toDataURL;
              console_error (Error (Some VideoPlayer.cors_message));
              VideoPlayer.onError (Some VideoPlayer.cors_message)].
      repeat split.
    + cbn [fst snd].
      destruct (VideoPlayer.detectProducts w (nth_error (split "," dataUrl) 1))
        as [e | results] eqn:Hdetect.
      * exists [ctx_drawImage (videoWidth video) (videoHeight video);
                canvas_toDataURL;
                call_detectProducts (nth_error (split "," dataUrl) 1);
                console_error e;
                VideoPlayer.onError
                  (Some (or_default (message e) VideoPlayer.analysis_failed_message))].
        cbn. repeat split.
      * exists [ctx_drawImage (videoWidth video) (videoHeight video);
                canvas_toDataURL;
                call_detectProducts (nth_error (split "," dataUrl) 1);
                VideoPlayer.onDetections (products results)].
        cbn. repeat split.
Qed.

Lemma processing_flag_bracket_witness :
  exists body,
    VideoPlayer.captureFrame
      (browser ready_video jpeg (ret {| products := [sample_product] |}))
    = (([VideoPlayer.onError None; VideoPlayer.onProcessing true;
         VideoPlayer.onDetections []] ++ body ++ [VideoPlayer.onProcessing false])%list,
       inr tt) /\
    existsb Observe.sets_processing body = false /\
    (forall st, Observe.requests_while_processing st
                  (trace (VideoPlayer.captureFrame
                            (browser ready_video jpeg
                               (ret {| products := [sample_product] |})))) = true) /\
    (forall st, App.isProcessing
                  (App.after st (VideoPlayer.captureFrame
                                   (browser ready_video jpeg
                                      (ret {| products := [sample_product] |}))))
                = false).
Proof.
  apply (processing_flag_bracket
           (browser ready_video jpeg (ret {| products := [sample_product] |}))
           ready_video {| getContext_2d := true |});
    [reflexivity | reflexivity | reflexivity | discriminate | discriminate].
Defined.

(** The three ways a capture past the dimension check can end. *)
Example capture_outcomes :
  trace (VideoPlayer.captureFrame
           (browser ready_video jpeg (ret {| products := [sample_product] |})))
  = [setError None; setIsProcessing true; setDetections [];
     ctx_drawImage 640 360; canvas_toDataURL; call_detectProducts (Some "AAAA");
     setDetections [sample_product]; setIsProcessing false] /\
  trace (VideoPlayer.captureFrame
           (browser ready_video jpeg
              (throw_new_Error "Invalid or missing API Key. Please check your configuration.")))
  = [setError None; setIsProcessing true; setDetections [];
     ctx_drawImage 640 360; canvas_toDataURL; call_detectProducts (Some "AAAA");
     console_error (Error (Some "Invalid or missing API Key. Please check your configuration."));
     setError (Some "Invalid or missing API Key. Please check your configuration.");
     setIsProcessing false] /\
  trace (VideoPlayer.captureFrame
           (browser ready_video tainted (ret {| products := [sample_product] |})))
  = [setError None; setIsProcessing true; setDetections [];
     ctx_drawImage 640 360; canvas_toDataURL;
     console_error (Error (Some VideoPlayer.cors_message));
     setError (Some VideoPlayer.cors_message); setIsProcessing false].
Proof. repeat split. Qed.

(** ** From the answer of the service to the screen *)

(** The shoe reported in the box [100, 200, 400, 600]: the client maps it
    to the product of the data model (link included), and a pause that
    receives it puts one rectangle at 10, 20, 40 and 30 percent. *)
Example shoe_on_screen :
  exists v,
    detectProducts (host_answering (Some shoe_text) shoe_response) (Some "AAAA")
    = ret {| products := [v] |} /\
    asDetectedProduct v = Some sample_product /\
    let st := App.after App.initial
                (VideoPlayer.handlePause
                   (browser ready_video jpeg (ret {| products := [sample_product] |}))) in
    App.overlay st = DetectionOverlay.Overlay [DetectionOverlay.rectangle sample_product] /\
    App.error st = None /\ App.isProcessing st = false /\
    DetectionOverlay.style (DetectionOverlay.rectangle sample_product)
    = {| DetectionOverlay.top := 10%float; DetectionOverlay.left := 20%float;
         DetectionOverlay.width := 40%float; DetectionOverlay.height := 30%float |}.
Proof.
  eexists. split; [reflexivity |]. repeat split.
Qed.

(* ===================================================================== *)
(** * Further properties of the code                                       *)
(* ===================================================================== *)

(** ** The query of a shopping link *)

Lemma encode_char_safe (c d : ascii) :
  In d (list_ascii_of_string
          (if uri_unreserved c then String c EmptyString else percent_encode c)) ->
  uri_unreserved d = true \/ d = "%"%char.
Proof.
  destruct c as [[] [] [] [] [] [] [] []]; cbn;
    intros H; repeat (destruct H as [<- | H]; [auto |]); contradiction.
Qed.

Lemma list_ascii_of_string_app (s t : string) :
  list_ascii_of_string (s ++ t)
  = (list_ascii_of_string s ++ list_ascii_of_string t)%list.
Proof.
  induction s as [| c s IH]; simpl; [reflexivity | now rewrite IH].
Qed.

Lemma includes_char_In (s : string) (c : ascii) :
  includes s (String c EmptyString) = true -> In c (list_ascii_of_string s).
Proof.
  induction s as [| d s IH]; cbn [includes]; intros H.
  - discriminate.
  - apply orb_true_iff in H as [H | H].
    + cbn in H. destruct (ascii_dec c d) as [-> | ne]; [now left | discriminate].
    + right. now apply IH.
Qed.

(** X1.  Whatever the product name, its encoded form consists of the
    characters [encodeURIComponent] leaves alone and of percent signs; so
    it holds no character that would end the query or start another
    parameter of the shopping link. *)
Theorem encoded_name_is_query_safe (name : string) :
  (forall c, In c (list_ascii_of_string (encodeURIComponent name)) ->
             uri_unreserved c = true \/ c = "%"%char) /\
  (forall c, In c ["&"; "="; "#"; "?"; "/"; "+"; " "; ":"; ";"; ","]%char ->
             includes (encodeURIComponent name) (String c EmptyString) = false).
Proof.
  assert (Hsafe : forall c, In c (list_ascii_of_string (encodeURIComponent name)) ->
                            uri_unreserved c = true \/ c = "%"%char).
  { induction name as [| d name IH]; cbn [encodeURIComponent list_ascii_of_string].
    - intros c [].
    - intros c Hin. rewrite list_ascii_of_string_app in Hin.
      apply in_app_or in Hin as [Hin | Hin]; [now apply (encode_char_safe d) | now apply IH]. }
  split; [exact Hsafe |].
  intros c Hc. destruct (includes (encodeURIComponent name) (String c EmptyString)) eqn:E;
    [| reflexivity].
  apply includes_char_In, Hsafe in E.
  cbn in Hc. repeat (destruct Hc as [<- | Hc]; [destruct E as [E | E]; discriminate |]).
  contradiction.
Qed.

Lemma unreserved_is_no_percent (c : ascii) :
  uri_unreserved c = true -> Ascii.eqb c "%" = false.
Proof.
  destruct c as [[] [] [] [] [] [] [] []]; vm_compute; congruence.
Qed.

Lemma unhex_hex_digits (c : ascii) :
  Decode.unhex (hex_digit (nat_of_ascii c / 16)) = Some (nat_of_ascii c / 16)%nat /\
  Decode.unhex (hex_digit (nat_of_ascii c mod 16)) = Some (nat_of_ascii c mod 16)%nat /\
  ascii_of_nat (16 * (nat_of_ascii c / 16) + nat_of_ascii c mod 16) = c.
Proof.
  destruct c as [[] [] [] [] [] [] [] []]; vm_compute; repeat split.
Qed.

Lemma decode_encode_char (c : ascii) (rest : string) :
  Decode.decodeURIComponent
    ((if uri_unreserved c then String c EmptyString else percent_encode c) ++ rest)
  = option_map (String c) (Decode.decodeURIComponent rest).
Proof.
  destruct (uri_unreserved c) eqn:Hc.
  - cbn [append Decode.decodeURIComponent].
    rewrite (unreserved_is_no_percent c Hc).
    destruct (Decode.decodeURIComponent rest); reflexivity.
  - unfold percent_encode. cbn [append Decode.decodeURIComponent].
    change (Ascii.eqb "%" "%") with true. cbv iota.
    destruct (unhex_hex_digits c) as [Hhi [Hlo Hc']].
    rewrite Hhi, Hlo.
    destruct (Decode.decodeURIComponent rest); cbn [option_map]; [| reflexivity].
    now rewrite Hc'.
Qed.

(** X2.  Decoding an encoded name gives the name back, so two different
    names never get the same query. *)
Theorem encoded_name_round_trip (name : string) :
  Decode.decodeURIComponent (encodeURIComponent name) = Some name /\
  (forall other, encodeURIComponent other = encodeURIComponent name -> other = name).
Proof.
  assert (Hround : forall s, Decode.decodeURIComponent (encodeURIComponent s) = Some s).
  { induction s as [| c s IH]; [reflexivity |].
    cbn [encodeURIComponent]. rewrite decode_encode_char, IH. reflexivity. }
  split; [apply Hround |].
  intros other Heq. pose proof (Hround other) as Ho. rewrite Heq, Hround in Ho.
  now injection Ho.
Qed.

(** ** The overlay and the result list *)

Lemma for_all_pairs_spec (f : Z -> Z -> bool) (l : list Z) (lo hi : Z) :
  Scale.for_all_pairs f l = true -> In lo l -> In hi l -> (lo <= hi)%Z ->
  f lo hi = true.
Proof.
  unfold Scale.for_all_pairs. intros H Hlo Hhi Hle.
  rewrite forallb_forall in H. specialize (H hi Hhi).
  rewrite forallb_forall in H. specialize (H lo Hlo).
  apply orb_true_iff in H as [H | H]; [apply Z.ltb_lt in H; lia | exact H].
Qed.

Lemma scale_inside : Scale.for_all_pairs Scale.inside Scale.scale = true.
Proof. vm_compute. reflexivity. Qed.

Lemma in_scale (z : Z) : (0 <= z <= 1000)%Z -> In z Scale.scale.
Proof.
  intros H. unfold Scale.scale. apply in_map_iff. exists (Z.to_nat z).
  split; [lia |]. apply in_seq. lia.
Qed.

Lemma inside_scale (lo hi : Z) :
  (0 <= lo)%Z -> (lo <= hi)%Z -> (hi <= 1000)%Z -> Scale.inside lo hi = true.
Proof.
  intros H0 Hle H1.
  apply (for_all_pairs_spec Scale.inside Scale.scale lo hi scale_inside);
    [apply in_scale | apply in_scale |]; lia.
Qed.

(** X3.  For a box with integer coordinates, 0 <= ymin <= ymax <= 1000
    and 0 <= xmin <= xmax <= 1000, the numbers the renderer computes are
    inside the video: top, left, width and height are between 0 and 100,
    and so are the binary64 sums top + height and left + width. *)
Theorem rectangle_inside_frame (product : DetectedProduct) (y0 x0 y1 x1 : Z) :
  box product = {| ymin := Scale.integer y0; xmin := Scale.integer x0;
                   ymax := Scale.integer y1; xmax := Scale.integer x1 |} ->
  (0 <= y0)%Z -> (y0 <= y1)%Z -> (y1 <= 1000)%Z ->
  (0 <= x0)%Z -> (x0 <= x1)%Z -> (x1 <= 1000)%Z ->
  let s := DetectionOverlay.style (DetectionOverlay.rectangle product) in
  let between_0_and_100 x := PrimFloat.leb 0 x && PrimFloat.leb x 100 = true in
  between_0_and_100 (DetectionOverlay.top s) /\
  between_0_and_100 (DetectionOverlay.left s) /\
  between_0_and_100 (DetectionOverlay.width s) /\
  between_0_and_100 (DetectionOverlay.height s) /\
  PrimFloat.leb (DetectionOverlay.top s + DetectionOverlay.height s) 100 = true /\
  PrimFloat.leb (DetectionOverlay.left s + DetectionOverlay.width s) 100 = true.
Proof.
  intros Hbox Hy0 Hy Hy1 Hx0 Hx Hx1 s between_0_and_100. subst s between_0_and_100.
  cbn [DetectionOverlay.rectangle DetectionOverlay.style DetectionOverlay.top
       DetectionOverlay.left DetectionOverlay.width DetectionOverlay.height].
  rewrite Hbox. cbn [ymin xmin ymax xmax].
  pose proof (inside_scale y0 y1 Hy0 Hy Hy1) as HY.
  pose proof (inside_scale x0 x1 Hx0 Hx Hx1) as HX.
  unfold Scale.inside in HY, HX. cbv zeta in HY, HX.
  repeat (apply andb_true_iff in HY as [HY ?]).
  repeat (apply andb_true_iff in HX as [HX ?]).
  repeat split; try assumption; apply andb_true_iff; split; assumption.
Qed.

Lemma rectangle_inside_frame_witness :
  let s := DetectionOverlay.style (DetectionOverlay.rectangle sample_product) in
  let between_0_and_100 x := PrimFloat.leb 0 x && PrimFloat.leb x 100 = true in
  between_0_and_100 (DetectionOverlay.top s) /\
  between_0_and_100 (DetectionOverlay.left s) /\
  between_0_and_100 (DetectionOverlay.width s) /\
  between_0_and_100 (DetectionOverlay.height s) /\
  PrimFloat.leb (DetectionOverlay.top s + DetectionOverlay.height s) 100 = true /\
  PrimFloat.leb (DetectionOverlay.left s + DetectionOverlay.width s) 100 = true.
Proof.
  apply (rectangle_inside_frame sample_product 100 200 400 600);
    [reflexivity | lia | lia | lia | lia | lia | lia].
Defined.

(** Off the integer scale the sum can leave the frame: for ymin = 0.4 and
    ymax = 1000 the height is the double printed as 99.96000000000001 and
    top + height is above 100. *)
Example fractional_box_leaves_frame :
  let s := DetectionOverlay.style (DetectionOverlay.rectangle tall_product) in
  DetectionOverlay.top s = 0.04%float /\
  DetectionOverlay.height s = 99.96000000000001%float /\
  PrimFloat.ltb 100 (DetectionOverlay.top s + DetectionOverlay.height s) = true.
Proof. repeat split. Qed.

(** X4.  The overlay and the result list always show the same products:
    in every view state there are as many rectangles as cards, and the
    rectangle and the card at the same position have the same key, the
    same label and the same link, both opened in a new tab.  While a
    frame is analysed, and when nothing is detected, both are empty. *)
Theorem overlay_and_list_agree (st : App.State) :
  let boxes := DetectionOverlay.rectangles (App.overlay st) in
  let cards := AppView.cards (AppView.analysis_results st) in
  map DetectionOverlay.key boxes = map AppView.key cards /\
  map DetectionOverlay.tooltip boxes = map AppView.title cards /\
  map DetectionOverlay.onClick boxes
  = map (fun c => (AppView.href c, AppView.target c)) cards /\
  (App.isProcessing st = true -> boxes = [] /\ cards = []) /\
  (App.isProcessing st = false ->
     map DetectionOverlay.key boxes = map id (App.detections st)).
Proof.
  unfold App.overlay, AppView.analysis_results, DetectionOverlay.DetectionOverlay.
  destruct (App.isProcessing st), (App.detections st) as [| p ps];
    cbn [length Nat.eqb andb negb DetectionOverlay.rectangles AppView.cards map];
    rewrite ?map_map; repeat split; try discriminate; reflexivity.
Qed.

(** ** What every handler keeps *)

Lemma or_default_text (m : option string) (c : ascii) (d : string) :
  exists c' rest, or_default m (String c d) = String c' rest.
Proof. destruct m as [[| c' rest] |]; cbn; eauto. Qed.

Lemma capture_effects (w : VideoPlayer.Browser) :
  forallb (fun e => Runs.keeps_source e && Runs.reports_text e)
          (trace (VideoPlayer.captureFrame w)) = true.
Proof.
  run_capture. unfold trace.
  destruct (VideoPlayer.videoRef_current w) as [video |]; [| reflexivity].
  destruct (VideoPlayer.canvasRef_current w) as [[[|]] |]; try reflexivity.
  cbn [negb getContext_2d].
  destruct ((videoWidth video =? 0)%N || (videoHeight video =? 0)%N); [reflexivity |].
  destruct (VideoPlayer.drawImage w) as [e | []].
  - destruct (or_default_text (message e) "F" "ailed to analyze the video frame.")
      as [c [rest Hmsg]].
    unfold VideoPlayer.analysis_failed_message. cbn. rewrite Hmsg. reflexivity.
  - destruct (VideoPlayer.toDataURL w) as [e | dataUrl]; [reflexivity |].
    cbn [fst snd].
    destruct (VideoPlayer.detectProducts w (nth_error (split "," dataUrl) 1))
      as [e | results]; [| reflexivity].
    destruct (or_default_text (message e) "F" "ailed to analyze the video frame.")
      as [c [rest Hmsg]].
    unfold VideoPlayer.analysis_failed_message. cbn. rewrite Hmsg. reflexivity.
Qed.

Lemma upload_effects (createObjectURL : File -> exc string) (st : App.State)
    (file : option File) :
  forallb Runs.reports_text (trace (App.handleFileUpload createObjectURL st file)) = true.
Proof.
  destruct file as [file |]; [| reflexivity].
  unfold trace, App.handleFileUpload, io_bind, io_try_catch, emit, call, io_ret, io_throw.
  cbn. break_tests; reflexivity.
Qed.

Lemma handle_reports_text (st : App.State) (ev : Runs.Event) :
  forallb Runs.reports_text (trace (Runs.handle st ev)) = true.
Proof.
  destruct ev as [u | w | | |]; try reflexivity.
  - apply upload_effects.
  - unfold Runs.handle, VideoPlayer.handlePause, io_bind, emit.
    destruct (VideoPlayer.captureFrame w) as [t r] eqn:E. cbn.
    pose proof (capture_effects w) as H. rewrite E in H. cbn in H.
    rewrite forallb_forall in *. intros e He. specialize (H e He).
    now apply andb_true_iff in H.
Qed.

Lemma run_reports_text (effects : list effect) (st : App.State) :
  forallb Runs.reports_text effects = true ->
  App.error st <> Some "" ->
  App.error (App.run st effects) <> Some "".
Proof.
  revert st. induction effects as [| e rest IH]; intros st Hall Hst; [exact Hst |].
  cbn in Hall. apply andb_true_iff in Hall as [He Hrest].
  apply (IH (App.step st e) Hrest).
  destruct e as [| | | | [[| c m] |] | | | | | | |]; cbn; try exact Hst; discriminate.
Qed.

(** X5.  In every state the page can reach, the error is null or a
    non-empty text, so the banner shows exactly the error: no handler ever
    reports an error the banner would hide. *)
Theorem banner_shows_every_error (events : list Runs.Event) :
  let st := Runs.reach App.initial events in
  App.error st <> Some "" /\ AppView.error_banner st = App.error st.
Proof.
  assert (Hinv : forall st, App.error st <> Some "" ->
                            App.error (Runs.reach st events) <> Some "").
  { induction events as [| ev rest IH]; intros st Hst; [exact Hst |].
    apply IH. apply run_reports_text; [apply handle_reports_text | exact Hst]. }
  intros st. assert (Hst : App.error st <> Some "") by (apply Hinv; discriminate).
  split; [exact Hst |].
  unfold AppView.error_banner. destruct (App.error st) as [[| c m] |];
    [now elim Hst | reflexivity | reflexivity].
Qed.

(** The two ways an upload of a file can end. *)
Lemma upload_outcome (createObjectURL : File -> exc string) (st : App.State)
    (file : File) :
  let h := trace (App.handleFileUpload createObjectURL st (Some file)) in
  let st' := App.run st h in
  (Observe.accepted h = false /\
   (forall u, ~ In (setVideoSrc u) h) /\
   (exists msg, st' = {| App.videoSrc := App.videoSrc st;
                         App.detections := App.detections st;
                         App.isProcessing := App.isProcessing st;
                         App.hasUploaded := App.hasUploaded st;
                         App.error := Some msg;
                         App.isPaused := App.isPaused st |}))
  \/
  (Observe.accepted h = true /\
   exists c url,
     createObjectURL file = ret (String c url) /\
     (forall u, In (setVideoSrc u) h <-> u = String c url) /\
     st' = {| App.videoSrc := String c url;
              App.detections := [];
              App.isProcessing := App.isProcessing st;
              App.hasUploaded := true;
              App.error := None;
              App.isPaused := App.isPaused st |}).
Proof.
  unfold trace, App.handleFileUpload, io_bind, io_try_catch, emit, call, io_ret, io_throw.
  cbn.
  destruct (negb (App.isVideoMime file) && negb (App.hasVideoExtension file));
    [left; cbn; repeat split; [intros u [H | [H | []]]; discriminate | eauto] |].
  destruct (size file =? 0)%N;
    [left; cbn; repeat split; [intros u [H | [H | []]]; discriminate | eauto] |].
  destruct (104857600 <? size file)%N;
    [left; cbn; repeat split; [intros u [H | [H | []]]; discriminate | eauto] |].
  destruct (createObjectURL file) as [e | [| c url]];
    destruct (match App.videoSrc st with
              | EmptyString => false
              | String _ _ => true
              end && startsWith (App.videoSrc st) "blob:"); cbn.
  1-4: left; repeat split;
    [intros u H; repeat (destruct H as [H | H]; [discriminate |]); exact H | eauto].
  all: right; split; [reflexivity |]; exists c, url; split; [reflexivity |]; split;
    [| reflexivity].
  all: intros u; split;
    [intros H; repeat (destruct H as [H | H]; [try discriminate; now injection H |]);
     contradiction
    | intros ->; cbn; tauto].
Qed.

(** X6.  An upload touches neither the processing flag nor the paused
    flag.  A rejected upload (and a cancelled dialog) changes nothing but
    the error, so the current video and its detections stay; an accepted
    one makes the created URL the source, empties the detections, clears
    the error and marks the page as holding an upload. *)
Theorem upload_state_change (createObjectURL : File -> exc string)
    (st : App.State) (file : option File) :
  let h := trace (App.handleFileUpload createObjectURL st file) in
  let st' := App.run st h in
  App.isProcessing st' = App.isProcessing st /\
  App.isPaused st' = App.isPaused st /\
  (file = None -> App.error st' = None) /\
  (Observe.accepted h = false ->
     App.videoSrc st' = App.videoSrc st /\
     App.detections st' = App.detections st /\
     App.hasUploaded st' = App.hasUploaded st) /\
  (Observe.accepted h = true ->
     (exists f, file = Some f /\ createObjectURL f = ret (App.videoSrc st')) /\
     App.videoSrc st' <> "" /\
     App.detections st' = [] /\
     App.hasUploaded st' = true /\
     App.error st' = None).
Proof.
  destruct file as [file |].
  - destruct (upload_outcome createObjectURL st file)
      as [[Hacc [_ [msg Hst]]] | [Hacc [c [url [Hurl [_ Hst]]]]]];
      cbv zeta in *; rewrite Hacc, Hst; cbn; repeat split;
        try discriminate; try reflexivity.
    exists file. split; [reflexivity | exact Hurl].
  - cbn. repeat split; discriminate.
Qed.

Lemma run_keeps_source (effects : list effect) (st : App.State) :
  forallb Runs.keeps_source effects = true ->
  App.videoSrc (App.run st effects) = App.videoSrc st /\
  App.hasUploaded (App.run st effects) = App.hasUploaded st.
Proof.
  revert st. induction effects as [| e rest IH]; intros st Hall; [now split |].
  cbn in Hall. apply andb_true_iff in Hall as [He Hrest].
  destruct (IH (App.step st e) Hrest) as [Hsrc Hup]. cbn [App.run fold_left] in *.
  unfold App.run in *. rewrite Hsrc, Hup.
  destruct e; cbn in *; try discriminate; now split.
Qed.

Lemma handle_keeps_source (st : App.State) (ev : Runs.Event) :
  (forall u, ev <> Runs.FileChosen u) ->
  forallb Runs.keeps_source (trace (Runs.handle st ev)) = true.
Proof.
  intros Hev. destruct ev as [u | w | | |]; try reflexivity.
  - now elim (Hev u).
  - unfold Runs.handle, VideoPlayer.handlePause, io_bind, emit.
    destruct (VideoPlayer.captureFrame w) as [t r] eqn:E. cbn.
    pose proof (capture_effects w) as H. rewrite E in H. cbn in H.
    rewrite forallb_forall in *. intros e He. specialize (H e He).
    now apply andb_true_iff in H.
Qed.

Lemma reach_snoc (st : App.State) (events : list Runs.Event) (ev : Runs.Event) :
  Runs.reach st (events ++ [ev])
  = App.after (Runs.reach st events) (Runs.handle (Runs.reach st events) ev).
Proof. unfold Runs.reach. now rewrite fold_left_app. Qed.

Lemma handle_source (st : App.State) (ev : Runs.Event) :
  let st' := App.after st (Runs.handle st ev) in
  (App.videoSrc st' = App.videoSrc st /\ App.hasUploaded st' = App.hasUploaded st)
  \/ (exists u, ev = Runs.FileChosen u /\ Runs.created u = ret (App.videoSrc st')
                 /\ App.videoSrc st' <> "" /\ App.hasUploaded st' = true).
Proof.
  destruct ev as [[[file |] outcome] | w | | |].
  - unfold App.after, Runs.handle. cbn [Runs.picked Runs.created].
    destruct (upload_outcome (fun _ => outcome) st file)
      as [[_ [_ [msg Hst]]] | [_ [c [url [Hurl [_ Hst]]]]]];
      cbv zeta in Hst; rewrite Hst; cbn.
    + left. now split.
    + right. eexists. split; [reflexivity |]. cbn. repeat split; [exact Hurl | discriminate].
  - left. now split.
  - left. apply run_keeps_source, handle_keeps_source. intros u; discriminate.
  - left. now split.
  - left. now split.
  - left. now split.
Qed.

(** X7.  In every state the page can reach, the source of the player is
    not empty, and it is the sample video or a URL the browser created for
    a file the user picked; the hint about the demo video is shown only
    while the source is the sample video.  Pausing, playing, a failing
    video and closing the banner never change the source. *)
Theorem source_is_sample_or_upload (events : list Runs.Event) :
  let st := Runs.reach App.initial events in
  App.videoSrc st <> "" /\
  (App.videoSrc st = App.SAMPLE_VIDEO
   \/ exists u, In (Runs.FileChosen u) events /\ Runs.created u = ret (App.videoSrc st)) /\
  (AppView.demo_hint st = true -> App.videoSrc st = App.SAMPLE_VIDEO) /\
  (forall ev, (forall u, ev <> Runs.FileChosen u) ->
     App.videoSrc (App.after st (Runs.handle st ev)) = App.videoSrc st).
Proof.
  intros st. subst st. unfold AppView.demo_hint.
  induction events as [| ev events IH] using rev_ind.
  - split; [discriminate | split; [now left | split; [reflexivity |]]].
    intros ev Hev. unfold App.after.
    now apply run_keeps_source, handle_keeps_source.
  - rewrite reach_snoc. set (st := Runs.reach App.initial events) in *.
    destruct IH as [Hne [Hsrc [Hhint _]]].
    split; [| split; [| split]].
    4: { intros ev' Hev. unfold App.after.
         now apply run_keeps_source, handle_keeps_source. }
    all: destruct (handle_source st ev) as [[Hs Hu] | [u [-> [Hcr [Hne' Hup]]]]];
      cbv zeta in *.
    + now rewrite Hs.
    + exact Hne'.
    + rewrite Hs. destruct Hsrc as [Hsrc | [u [Hin Hcr]]]; [now left |].
      right. exists u. split; [apply in_or_app; now left | exact Hcr].
    + right. exists u. split; [apply in_or_app; right; now left | exact Hcr].
    + rewrite Hs, Hu. exact Hhint.
    + rewrite Hup. discriminate.
Qed.

(** ** Object URLs *)

(** X8.  The handler creates an object URL only for the picked file and
    only after the file has passed the three checks, and it revokes only
    the current source, only when that is a blob URL and only on the way
    to creating a new one: a rejected upload neither creates nor revokes
    anything. *)
Theorem object_urls_only_for_valid_files (createObjectURL : File -> exc string)
    (st : App.State) (file : option File) :
  let h := trace (App.handleFileUpload createObjectURL st file) in
  (forall f, In (URL_createObjectURL f) h ->
     file = Some f /\
     App.isVideoMime f || App.hasVideoExtension f = true /\
     size f <> 0%N /\ (size f <= 100 * 1024 * 1024)%N) /\
  (forall u, In (URL_revokeObjectURL u) h ->
     u = App.videoSrc st /\ startsWith u "blob:" = true /\
     exists f, In (URL_createObjectURL f) h).
Proof.
  destruct file as [file |];
    [| cbn; split; [intros f [H | []] | intros u [H | []]]; discriminate].
  unfold trace, App.handleFileUpload, io_bind, io_try_catch, emit, call, io_ret, io_throw.
  cbn.
  destruct (App.isVideoMime file || App.hasVideoExtension file) eqn:Hfmt.
  2: { apply orb_false_elim in Hfmt as [-> ->]. cbn.
       split; [intros f H | intros u H];
         repeat (destruct H as [H | H]; [discriminate |]); contradiction. }
  replace (negb (App.isVideoMime file) && negb (App.hasVideoExtension file)) with false
    by (rewrite <- negb_orb, Hfmt; reflexivity).
  destruct (size file =? 0)%N eqn:Hsize.
  { cbn. split; [intros f H | intros u H];
      repeat (destruct H as [H | H]; [discriminate |]); contradiction. }
  destruct (104857600 <? size file)%N eqn:Hbig.
  { cbn. split; [intros f H | intros u H];
      repeat (destruct H as [H | H]; [discriminate |]); contradiction. }
  apply N.eqb_neq in Hsize. apply N.ltb_ge in Hbig.
  assert (Hvalid : forall f, f = file ->
            Some file = Some f /\
            App.isVideoMime f || App.hasVideoExtension f = true /\
            size f <> 0%N /\ (size f <= 100 * 1024 * 1024)%N).
  { intros f ->. repeat split; assumption. }
  destruct (startsWith (App.videoSrc st) "blob:") eqn:Hblob;
    destruct (App.videoSrc st) as [| c0 src] eqn:Hsrc; try discriminate;
    destruct (createObjectURL file) as [e | [| c url]]; cbn;
    (split; [intros f H | intros u H]);
    repeat (destruct H as [H | H];
            [try discriminate; injection H as <-;
             first [now apply Hvalid
                   | repeat split; [exact Hblob | exists file; cbn; tauto]] |]);
    try contradiction.
Qed.

(** X9.  When a file passes the three checks and the browser fails to
    create the object URL (the call throws, or returns an empty URL), the
    upload ends with the critical-error message and the source, the
    detections and the upload mark stay; a blob source has been revoked
    by then all the same. *)
Theorem url_creation_failure (createObjectURL : File -> exc string)
    (st : App.State) (file : File) :
  App.isVideoMime file || App.hasVideoExtension file = true ->
  size file <> 0%N ->
  (size file <= 100 * 1024 * 1024)%N ->
  Observe.url_created (createObjectURL file) = false ->
  let h := trace (App.handleFileUpload createObjectURL st (Some file)) in
  let st' := App.run st h in
  App.error st' = Some App.critical_error_message /\
  App.videoSrc st' = App.videoSrc st /\
  App.detections st' = App.detections st /\
  App.hasUploaded st' = App.hasUploaded st /\
  (startsWith (App.videoSrc st) "blob:" = true ->
     In (URL_revokeObjectURL (App.videoSrc st)) h).
Proof.
  intros Hfmt Hsize Hbig Hurl.
  unfold trace, App.handleFileUpload, io_bind, io_try_catch, emit, call, io_ret, io_throw.
  cbn.
  replace (negb (App.isVideoMime file) && negb (App.hasVideoExtension file)) with false
    by (rewrite <- negb_orb, Hfmt; reflexivity).
  apply N.eqb_neq in Hsize. rewrite Hsize.
  apply N.ltb_ge in Hbig. change (100 * 1024 * 1024)%N with 104857600%N in Hbig.
  rewrite Hbig.
  destruct (startsWith (App.videoSrc st) "blob:") eqn:Hblob;
    destruct (App.videoSrc st) as [| c0 src] eqn:Hsrc; try discriminate;
    destruct (createObjectURL file) as [e | [| c url]]; try discriminate;
    cbn; rewrite ?Hsrc; (do 4 (split; [reflexivity |]));
    first [discriminate | intros _; right; left; reflexivity].
Qed.

Lemma url_creation_failure_witness :
  let h := trace (App.handleFileUpload no_url showing_upload (Some small_webm)) in
  let st' := App.run showing_upload h in
  App.error st' = Some App.critical_error_message /\
  App.videoSrc st' = "blob:http://localhost/0" /\
  App.detections st' = [sample_product] /\
  App.hasUploaded st' = true /\
  (startsWith "blob:http://localhost/0" "blob:" = true ->
     In (URL_revokeObjectURL "blob:http://localhost/0") h).
Proof.
  apply (url_creation_failure no_url showing_upload small_webm);
    [reflexivity | discriminate | discriminate | reflexivity].
Defined.

Lemma startsWith_blob_nonempty (s : string) :
  startsWith s "blob:" = true -> truthy_string (Some s) = true.
Proof. destruct s; [discriminate | reflexivity]. Qed.

Lemma cleanup_blob (src : string) :
  startsWith src "blob:" = true ->
  trace (AppView.cleanup src) = [URL_revokeObjectURL src].
Proof.
  intros H. unfold AppView.cleanup. now rewrite (startsWith_blob_nonempty src H), H.
Qed.

Lemma cleanup_effects (src : string) (e : effect) :
  In e (trace (AppView.cleanup src)) -> e = URL_revokeObjectURL src.
Proof.
  unfold AppView.cleanup.
  destruct (truthy_string (Some src) && startsWith src "blob:"); cbn; intuition.
Qed.

Lemma rerender_effects (a b : App.State) (e : effect) :
  In e (trace (AppView.rerender a b)) -> e = URL_revokeObjectURL (App.videoSrc a).
Proof.
  unfold AppView.rerender. destruct (String.eqb (App.videoSrc a) (App.videoSrc b)).
  - intros [].
  - apply cleanup_effects.
Qed.

Lemma run_outside_calls (effects : list effect) (st : App.State) :
  (forall e, In e effects -> exists u, e = URL_revokeObjectURL u) ->
  App.run st effects = st.
Proof.
  revert st. induction effects as [| e rest IH]; intros st H; [reflexivity |].
  destruct (H e (or_introl eq_refl)) as [u ->]. cbn.
  apply IH. intros e' He'. apply H. now right.
Qed.

Lemma run_upload_event (st : App.State) (u : Runs.Upload) :
  App.run st (Runs.upload_event st u)
  = App.run st (trace (App.handleFileUpload (fun _ => Runs.created u) st (Runs.picked u))).
Proof.
  unfold Runs.upload_event, App.run. rewrite fold_left_app.
  apply run_outside_calls. intros e He. apply rerender_effects in He. eauto.
Qed.

(** What one use of the file input does to the source, and which URL it
    hands to the player. *)
Lemma upload_event_source (st : App.State) (u : Runs.Upload) :
  let t := Runs.upload_event st u in
  let st' := App.run st t in
  (forall url, In (setVideoSrc url) t -> url = App.videoSrc st') /\
  (App.videoSrc st' = App.videoSrc st
   \/ (startsWith (App.videoSrc st) "blob:" = true ->
       In (URL_revokeObjectURL (App.videoSrc st)) t)).
Proof.
  cbv zeta. rewrite run_upload_event. unfold Runs.upload_event.
  set (h := trace (App.handleFileUpload (fun _ => Runs.created u) st (Runs.picked u))).
  assert (Hcases :
    ((forall url, ~ In (setVideoSrc url) h) /\ App.videoSrc (App.run st h) = App.videoSrc st)
    \/ (forall url, In (setVideoSrc url) h <-> url = App.videoSrc (App.run st h))).
  { subst h. destruct (Runs.picked u) as [file |].
    - destruct (upload_outcome (fun _ => Runs.created u) st file)
        as [[_ [Hno [msg Hst]]] | [_ [c [url [_ [Hin Hst]]]]]]; cbv zeta in *.
      + left. split; [exact Hno | now rewrite Hst].
      + right. rewrite Hst. exact Hin.
    - left. split; [intros url [H | []]; discriminate | reflexivity]. }
  split.
  - intros url Hin. apply in_app_or in Hin as [Hin | Hin].
    + destruct Hcases as [[Hno _] | Hiff]; [now elim (Hno url) | now apply Hiff].
    + apply rerender_effects in Hin. discriminate.
  - unfold AppView.rerender.
    destruct (String.eqb (App.videoSrc st) (App.videoSrc (App.run st h))) eqn:E.
    + left. apply String.eqb_eq in E. now rewrite <- E.
    + right. intros Hblob. apply in_or_app. right.
      rewrite (cleanup_blob _ Hblob). now left.
Qed.

Lemma session_revokes (uploads : list Runs.Upload) (st : App.State) (url : string) :
  startsWith url "blob:" = true ->
  url = App.videoSrc st \/ In (setVideoSrc url) (Runs.session_from st uploads) ->
  In (URL_revokeObjectURL url) (Runs.session_from st uploads).
Proof.
  intros Hblob. revert st.
  induction uploads as [| u rest IH]; intros st Hsrc; cbn [Runs.session_from] in *.
  - destruct Hsrc as [-> | Hin].
    + unfold AppView.unmount. rewrite (cleanup_blob _ Hblob). now left.
    + apply cleanup_effects in Hin. discriminate.
  - destruct (upload_event_source st u) as [Hset Hold]; cbv zeta in *.
    apply in_or_app.
    destruct Hsrc as [-> | Hin].
    + destruct Hold as [Hsame | Hrevoked].
      * right. apply IH. left. now rewrite Hsame.
      * left. now apply Hrevoked.
    + apply in_app_or in Hin as [Hin | Hin].
      * right. apply IH. left. now apply Hset.
      * right. apply IH. now right.
Qed.

(** X10.  Over the life of the page (any sequence of uses of the file
    input, then the unmount), every blob URL that was made the source of
    the player is revoked: the handler and the effect on [videoSrc]
    together leak no object URL. *)
Theorem session_leaks_no_url (uploads : list Runs.Upload) (url : string) :
  In (setVideoSrc url) (Runs.session uploads) ->
  startsWith url "blob:" = true ->
  In (URL_revokeObjectURL url) (Runs.session uploads).
Proof.
  intros Hin Hblob. apply session_revokes; [exact Hblob | now right].
Qed.

Lemma session_leaks_no_url_witness :
  In (setVideoSrc "blob:http://localhost/1")
     (Runs.session [pick small_webm "blob:http://localhost/1";
                    pick notes_txt "blob:http://localhost/2";
                    pick small_webm "blob:http://localhost/3"]) /\
  In (URL_revokeObjectURL "blob:http://localhost/1")
     (Runs.session [pick small_webm "blob:http://localhost/1";
                    pick notes_txt "blob:http://localhost/2";
                    pick small_webm "blob:http://localhost/3"]).
Proof.
  assert (Hin : In (setVideoSrc "blob:http://localhost/1")
                   (Runs.session [pick small_webm "blob:http://localhost/1";
                                  pick notes_txt "blob:http://localhost/2";
                                  pick small_webm "blob:http://localhost/3"])).
  { cbn. tauto. }
  split; [exact Hin |].
  apply (session_leaks_no_url _ _ Hin). reflexivity.
Defined.

(** The effects of that session, in order. *)
Example session_sample :
  Runs.session [pick small_webm "blob:http://localhost/1";
                pick notes_txt "blob:http://localhost/2";
                pick small_webm "blob:http://localhost/3"]
  = [setError None; URL_createObjectURL small_webm;
     setVideoSrc "blob:http://localhost/1"; setDetections [];
     setHasUploaded true; setError None;
     setError None; setError (Some (App.unsupported_format_message notes_txt));
     setError None; URL_revokeObjectURL "blob:http://localhost/1";
     URL_createObjectURL small_webm;
     setVideoSrc "blob:http://localhost/3"; setDetections [];
     setHasUploaded true; setError None;
     URL_revokeObjectURL "blob:http://localhost/1";
     URL_revokeObjectURL "blob:http://localhost/3"].
Proof. reflexivity. Qed.

(** ** The capture cycle *)

Lemma capture_past_check (w : VideoPlayer.Browser) (video : Video) (canvas : Canvas) :
  VideoPlayer.videoRef_current w = Some video ->
  VideoPlayer.canvasRef_current w = Some canvas ->
  getContext_2d canvas = true ->
  videoWidth video <> 0%N -> videoHeight video <> 0%N ->
  trace (VideoPlayer.captureFrame w)
  = ([setError None; setIsProcessing true; setDetections [];
      ctx_drawImage (videoWidth video) (videoHeight video)]
     ++ match VideoPlayer.drawImage w with
        | inl e =>
            [console_error e;
             setError (Some (or_default (message e) VideoPlayer.analysis_failed_message))]
        | inr _ =>
            canvas_toDataURL ::
            match VideoPlayer.toDataURL w with
            | inl _ =>
                [console_error (Error (Some VideoPlayer.cors_message));
                 setError (Some VideoPlayer.cors_message)]
            | inr dataUrl =>
                call_detectProducts (nth_error (split "," dataUrl) 1) ::
                match VideoPlayer.detectProducts w (nth_error (split "," dataUrl) 1) with
                | inl e =>
                    [console_error e;
                     setError (Some (or_default (message e)
                                       VideoPlayer.analysis_failed_message))]
                | inr results => [setDetections (products results)]
                end
            end
        end
     ++ [setIsProcessing false])%list.
Proof.
  intros Hvideo Hcanvas Hctx Hw Hh.
  assert (Htest : (videoWidth video =? 0)%N || (videoHeight video =? 0)%N = false).
  { apply orb_false_iff. split; now apply N.eqb_neq. }
  run_capture. rewrite Hvideo, Hcanvas, Hctx. cbn [negb]. rewrite Htest.
  unfold trace, VideoPlayer.onError, VideoPlayer.onProcessing, VideoPlayer.onDetections.
  destruct (VideoPlayer.drawImage w) as [e | []]; [reflexivity |].
  destruct (VideoPlayer.toDataURL w) as [e | dataUrl]; [reflexivity |].
  cbn [fst snd].
  destruct (VideoPlayer.detectProducts w (nth_error (split "," dataUrl) 1));
    reflexivity.
Qed.

Lemma run_clears_only (other : list effect) (st : App.State) :
  forallb Runs.clears_only other = true ->
  (App.detections st = [] -> App.detections (App.run st other) = []) /\
  (App.error st = None -> App.error (App.run st other) = None).
Proof.
  revert st. induction other as [| e rest IH]; intros st Hall; [now split |].
  cbn in Hall. apply andb_true_iff in Hall as [He Hrest].
  destruct (IH (App.step st e) Hrest) as [Hdet Herr].
  split; intros H; [apply Hdet | apply Herr];
    destruct e as [| [| p ps] | | | [msg |] | | | | | | |]; cbn in *;
    try discriminate; try exact H; reflexivity.
Qed.

(** X11.  A capture that gets past the dimension check, run to its end
    with no other handler in between, ends in one of two ways, whatever
    the state before: with no error and the products the detection client
    returned, which takes drawing, serializing and detecting to succeed;
    or with a non-empty error message and an empty detection list.  When
    other handlers run while the request is pending and only clear the
    error and the detections (a play, an accepted upload), the cycle
    still ends with no error or with no detections. *)
Theorem capture_ends_with_products_or_error (w : VideoPlayer.Browser)
    (video : Video) (canvas : Canvas) (st : App.State) :
  VideoPlayer.videoRef_current w = Some video ->
  VideoPlayer.canvasRef_current w = Some canvas ->
  getContext_2d canvas = true ->
  videoWidth video <> 0%N -> videoHeight video <> 0%N ->
  (let st' := App.after st (VideoPlayer.captureFrame w) in
   (App.error st' = None /\
    exists dataUrl results,
      VideoPlayer.drawImage w = ret tt /\
      VideoPlayer.toDataURL w = ret dataUrl /\
      VideoPlayer.detectProducts w (nth_error (split "," dataUrl) 1) = ret results /\
      App.detections st' = products results)
   \/ (exists msg, App.error st' = Some msg /\ msg <> "" /\ App.detections st' = [])) /\
  (forall other,
     forallb Runs.clears_only other = true ->
     let st' := App.run st (Runs.during_request
                              (trace (VideoPlayer.captureFrame w)) other) in
     App.error st' = None \/ App.detections st' = []).
Proof.
  intros Hvideo Hcanvas Hctx Hw Hh. cbv zeta. unfold App.after, Runs.during_request.
  rewrite (capture_past_check w video canvas Hvideo Hcanvas Hctx Hw Hh).
  destruct (VideoPlayer.drawImage w) as [e | []].
  - destruct (or_default_text (message e) "F" "ailed to analyze the video frame.")
      as [c [rest Hmsg]].
    unfold VideoPlayer.analysis_failed_message. split.
    + right. exists (String c rest). cbn. rewrite Hmsg. repeat split. discriminate.
    + intros other Hother. right. cbn [app Runs.before_request Runs.after_request
        Observe.is_detection_request].
      unfold App.run. cbn [fold_left]. rewrite fold_left_app. cbn [fold_left].
      cbn [App.step App.detections App.error].
      now apply (run_clears_only other).
  - destruct (VideoPlayer.toDataURL w) as [e | dataUrl].
    + split.
      * right. exists VideoPlayer.cors_message. repeat split. discriminate.
      * intros other Hother. right. cbn [app Runs.before_request Runs.after_request
          Observe.is_detection_request].
        unfold App.run. cbn [fold_left]. rewrite fold_left_app. cbn [fold_left].
        cbn [App.step App.detections App.error].
        now apply (run_clears_only other).
    + destruct (VideoPlayer.detectProducts w (nth_error (split "," dataUrl) 1))
        as [e | results] eqn:Hdetect.
      * destruct (or_default_text (message e) "F" "ailed to analyze the video frame.")
          as [c [rest Hmsg]].
        unfold VideoPlayer.analysis_failed_message. split.
        -- right. exists (String c rest). cbn. rewrite Hmsg. repeat split. discriminate.
        -- intros other Hother. right. cbn [app Runs.before_request Runs.after_request
             Observe.is_detection_request].
           unfold App.run. cbn [fold_left]. rewrite fold_left_app. cbn [fold_left].
           cbn [App.step App.detections App.error].
           now apply (run_clears_only other).
      * split.
        -- left. split; [reflexivity |]. exists dataUrl, results. repeat split.
           exact Hdetect.
        -- intros other Hother. left. cbn [app Runs.before_request Runs.after_request
             Observe.is_detection_request].
           unfold App.run. cbn [fold_left]. rewrite fold_left_app. cbn [fold_left].
           cbn [App.step App.detections App.error].
           now apply (run_clears_only other).
Qed.

Lemma capture_ends_with_products_or_error_witness :
  (let st' := App.after showing_upload (VideoPlayer.captureFrame lamp_browser) in
   (App.error st' = None /\
    exists dataUrl results,
      VideoPlayer.drawImage lamp_browser = ret tt /\
      VideoPlayer.toDataURL lamp_browser = ret dataUrl /\
      VideoPlayer.detectProducts lamp_browser (nth_error (split "," dataUrl) 1)
        = ret results /\
      App.detections st' = products results)
   \/ (exists msg, App.error st' = Some msg /\ msg <> "" /\ App.detections st' = [])) /\
  (forall other,
     forallb Runs.clears_only other = true ->
     let st' := App.run showing_upload
                  (Runs.during_request
                     (trace (VideoPlayer.captureFrame lamp_browser)) other) in
     App.error st' = None \/ App.detections st' = []).
Proof.
  apply (capture_ends_with_products_or_error lamp_browser ready_video
           {| getContext_2d := true |} showing_upload);
    [reflexivity | reflexivity | reflexivity | discriminate | discriminate].
Defined.

(** The condition on the other handlers is needed: a play only clears,
    but a video error reported while the request is pending stays on
    screen beside the products that arrive after it. *)
Example error_during_request_stays :
  forallb Runs.clears_only (trace VideoPlayer.handlePlay) = true /\
  forallb Runs.clears_only (trace VideoPlayer.handleVideoError) = false /\
  let st' := App.run App.initial
               (Runs.during_request (trace (VideoPlayer.captureFrame shoe_browser))
                                    (trace VideoPlayer.handleVideoError)) in
  App.error st'
  = Some "Error loading video source. Please check the file format or URL." /\
  App.detections st' = [sample_product].
Proof. repeat split. Qed.

Lemma split_no_comma (s : string) :
  Runs.has_comma s = false -> split "," s = [s].
Proof.
  unfold Runs.has_comma.
  induction s as [| c s IH]; cbn [list_ascii_of_string existsb split]; [reflexivity |].
  intros H. apply orb_false_elim in H as [Hc Hs].
  rewrite Ascii.eqb_sym in Hc. rewrite Hc, (IH Hs). reflexivity.
Qed.

Lemma split_at_first_comma (header rest : string) :
  Runs.has_comma header = false ->
  split "," (header ++ "," ++ rest) = header :: split "," rest.
Proof.
  unfold Runs.has_comma. change ("," ++ rest) with (String "," rest).
  induction header as [| c header IH];
    cbn [list_ascii_of_string existsb split append].
  - intros _. now rewrite Ascii.eqb_refl.
  - intros H. apply orb_false_elim in H as [Hc Hs].
    rewrite Ascii.eqb_sym in Hc. rewrite Hc, (IH Hs). reflexivity.
Qed.

(** X12.  When the canvas serializes to a data URL, a header, a comma and
    a payload without commas, the one detection request of the capture
    carries exactly the payload; when the serialized text holds no comma
    at all, the request carries an undefined image. *)
Theorem capture_sends_payload (w : VideoPlayer.Browser) (video : Video)
    (canvas : Canvas) (dataUrl : string) :
  VideoPlayer.videoRef_current w = Some video ->
  VideoPlayer.canvasRef_current w = Some canvas ->
  getContext_2d canvas = true ->
  videoWidth video <> 0%N -> videoHeight video <> 0%N ->
  VideoPlayer.drawImage w = ret tt ->
  VideoPlayer.toDataURL w = ret dataUrl ->
  (forall header payload,
     dataUrl = header ++ "," ++ payload ->
     Runs.has_comma header = false -> Runs.has_comma payload = false ->
     filter Observe.is_detection_request (trace (VideoPlayer.captureFrame w))
     = [call_detectProducts (Some payload)]) /\
  (Runs.has_comma dataUrl = false ->
     filter Observe.is_detection_request (trace (VideoPlayer.captureFrame w))
     = [call_detectProducts None]).
Proof.
  intros Hvideo Hcanvas Hctx Hw Hh Hdraw Hdata.
  rewrite (capture_past_check w video canvas Hvideo Hcanvas Hctx Hw Hh), Hdraw, Hdata.
  unfold ret. cbv beta iota.
  split.
  - intros header payload -> Hheader Hpayload.
    rewrite (split_at_first_comma header payload Hheader), (split_no_comma payload Hpayload).
    cbn [nth_error].
    destruct (VideoPlayer.detectProducts w (Some payload)); reflexivity.
  - intros Hnone. rewrite (split_no_comma dataUrl Hnone). cbn [nth_error].
    destruct (VideoPlayer.detectProducts w None); reflexivity.
Qed.

Lemma capture_sends_payload_witness :
  filter Observe.is_detection_request (trace (VideoPlayer.captureFrame shoe_browser))
  = [call_detectProducts (Some "AAAA")].
Proof.
  apply (proj1 (capture_sends_payload shoe_browser ready_video
                  {| getContext_2d := true |} "data:image/jpeg;base64,AAAA"
                  eq_refl eq_refl eq_refl ltac:(discriminate) ltac:(discriminate)
                  eq_refl eq_refl)
           "data:image/jpeg;base64" "AAAA");
    reflexivity.
Defined.

(** ** Events during a pending request *)

Lemma before_after_request (capture : list effect) :
  (Runs.before_request capture ++ Runs.after_request capture)%list = capture.
Proof.
  induction capture as [| e rest IH]; [reflexivity |].
  cbn. destruct (Observe.is_detection_request e); cbn; [reflexivity | now rewrite IH].
Qed.

Lemma pause_trace_success (w : VideoPlayer.Browser)
    (r : DetectionResponse DetectedProduct) :
  Runs.capture_succeeds w r ->
  exists width height image,
    trace (VideoPlayer.handlePause w)
    = [setIsPaused true; setError None; setIsProcessing true; setDetections [];
       ctx_drawImage width height; canvas_toDataURL; call_detectProducts image;
       setDetections (products r); setIsProcessing false].
Proof.
  intros [video [canvas [dataUrl [Hv [Hc [Hctx [Hw [Hh [Hdraw [Hdata Hdetect]]]]]]]]]].
  pose proof (capture_past_check w video canvas Hv Hc Hctx Hw Hh) as Htrace.
  rewrite Hdraw, Hdata in Htrace. unfold ret in Htrace, Hdetect. cbv beta iota in Htrace.
  rewrite Hdetect in Htrace.
  exists (videoWidth video), (videoHeight video), (nth_error (split "," dataUrl) 1).
  unfold VideoPlayer.handlePause, io_bind, emit, trace in *.
  destruct (VideoPlayer.captureFrame w) as [t res]. cbn in *. now rewrite Htrace.
Qed.

(** X13.  A play event that arrives while the detection request of a
    pause is pending does not cancel the cycle: when the answer comes in,
    its products are put on screen although the video is playing again. *)
Theorem play_during_request_keeps_result (w : VideoPlayer.Browser)
    (r : DetectionResponse DetectedProduct) (st : App.State) :
  Runs.capture_succeeds w r ->
  let st' := App.run st (Runs.during_request (trace (VideoPlayer.handlePause w))
                                             (trace VideoPlayer.handlePlay)) in
  App.isPaused st' = false /\
  App.detections st' = products r /\
  App.isProcessing st' = false /\
  DetectionOverlay.rectangles (App.overlay st')
  = map DetectionOverlay.rectangle (products r).
Proof.
  intros Hok. destruct (pause_trace_success w r Hok) as [width [height [image Htrace]]].
  cbv zeta. rewrite Htrace. cbn. repeat split.
  unfold App.overlay, DetectionOverlay.DetectionOverlay. cbn.
  destruct (products r); reflexivity.
Qed.

Lemma shoe_browser_succeeds :
  Runs.capture_succeeds shoe_browser {| products := [sample_product] |}.
Proof.
  exists ready_video, {| getContext_2d := true |}, "data:image/jpeg;base64,AAAA".
  repeat split; discriminate.
Defined.

Lemma lamp_browser_succeeds :
  Runs.capture_succeeds lamp_browser {| products := [other_product] |}.
Proof.
  exists ready_video, {| getContext_2d := true |}, "data:image/jpeg;base64,AAAA".
  repeat split; discriminate.
Defined.

Lemma play_during_request_keeps_result_witness :
  let st' := App.run App.initial
               (Runs.during_request (trace (VideoPlayer.handlePause shoe_browser))
                                    (trace VideoPlayer.handlePlay)) in
  App.isPaused st' = false /\
  App.detections st' = [sample_product] /\
  App.isProcessing st' = false /\
  DetectionOverlay.rectangles (App.overlay st')
  = [DetectionOverlay.rectangle sample_product].
Proof.
  apply (play_during_request_keeps_result shoe_browser
           {| products := [sample_product] |} App.initial shoe_browser_succeeds).
Defined.

(** X14.  Two pauses, with a play between them, whose requests overlap.
    When the first answer arrives, the processing flag goes down and the
    first products are shown although the second request is still
    pending; and when the answers arrive in the other order, the products
    of the older request replace those of the newer one. *)
Theorem overlapping_captures_race (w1 w2 : VideoPlayer.Browser)
    (r1 r2 : DetectionResponse DetectedProduct) (st : App.State) :
  Runs.capture_succeeds w1 r1 ->
  Runs.capture_succeeds w2 r2 ->
  let t1 := trace (VideoPlayer.handlePause w1) in
  let t2 := trace (VideoPlayer.handlePause w2) in
  let replay := trace VideoPlayer.handlePlay in
  let first_answered :=
    App.run st (Runs.before_request t1 ++ replay ++ Runs.before_request t2
                  ++ Runs.after_request t1)%list in
  let older_last :=
    App.run st (Runs.before_request t1 ++ replay ++ Runs.before_request t2
                  ++ Runs.after_request t2 ++ Runs.after_request t1)%list in
  (App.isProcessing first_answered = false /\
   App.detections first_answered = products r1) /\
  (App.isProcessing older_last = false /\
   App.detections older_last = products r1 /\
   App.error older_last = None).
Proof.
  intros H1 H2.
  destruct (pause_trace_success w1 r1 H1) as [wd1 [ht1 [im1 Ht1]]].
  destruct (pause_trace_success w2 r2 H2) as [wd2 [ht2 [im2 Ht2]]].
  cbv zeta. rewrite Ht1, Ht2. cbn. repeat split.
Qed.

Lemma overlapping_captures_race_witness :
  let t1 := trace (VideoPlayer.handlePause shoe_browser) in
  let t2 := trace (VideoPlayer.handlePause lamp_browser) in
  let replay := trace VideoPlayer.handlePlay in
  let first_answered :=
    App.run App.initial (Runs.before_request t1 ++ replay ++ Runs.before_request t2
                           ++ Runs.after_request t1)%list in
  let older_last :=
    App.run App.initial (Runs.before_request t1 ++ replay ++ Runs.before_request t2
                           ++ Runs.after_request t2 ++ Runs.after_request t1)%list in
  (App.isProcessing first_answered = false /\
   App.detections first_answered = [sample_product]) /\
  (App.isProcessing older_last = false /\
   App.detections older_last = [sample_product] /\
   App.error older_last = None).
Proof.
  apply (overlapping_captures_race shoe_browser lamp_browser
           {| products := [sample_product] |} {| products := [other_product] |}
           App.initial shoe_browser_succeeds lamp_browser_succeeds).
Defined.

(** ** More on the detection client *)

Lemma mapM_Forall2 {A B : Type} (f : A -> exc B) (l : list A) (bs : list B) :
  mapM f l = ret bs <-> Forall2 (fun a b => f a = ret b) l bs.
Proof.
  revert bs. induction l as [| a l IH]; intros bs; cbn.
  - split.
    + intros H. injection H as <-. constructor.
    + intros H. inversion H. reflexivity.
  - destruct (f a) as [e | b] eqn:Ea; cbn.
    + split; [discriminate |]. intros H. inversion H; subst. unfold ret in *. congruence.
    + destruct (mapM f l) as [e | bs'] eqn:El; cbn.
      * split; [discriminate |]. intros H. inversion H as [| a' b' l' bs'' Hab Hrest]; subst.
        apply IH in Hrest. discriminate.
      * split.
        -- intros H. injection H as <-. constructor; [exact Ea | now apply IH].
        -- intros H. inversion H as [| a' b' l' bs'' Hab Hrest]; subst.
           apply IH in Hrest. unfold ret in *. congruence.
Qed.

Lemma mapM_fails {A B : Type} (f : A -> exc B) (l : list A) (a : A) (e : exn) :
  In a l -> f a = throw e -> exists e', mapM f l = throw e'.
Proof.
  intros Hin Hfail. induction l as [| x l IH]; [contradiction |].
  cbn. destruct (f x) as [ex | b] eqn:Ex; cbn; [now exists ex |].
  destruct Hin as [-> | Hin]; [unfold throw in *; congruence |].
  destruct (IH Hin) as [e' ->]. now exists e'.
Qed.

Lemma detectProducts_on_array (h : Host) (image : option string)
    (answer : string) (result : value) (elems : list value) :
  generateContent h image = ret {| text := Some answer |} ->
  answer <> "" ->
  JSON_parse h answer = ret result ->
  get result "products" = ret (VArray elems) ->
  detectProducts h image
  = try_catch (products <- mapM (map_product h) elems ;; ret {| products := products |})
      (fun error =>
         if message_includes error "API_KEY"
         then throw_new_Error "Invalid or missing API Key. Please check your configuration."
         else throw_new_Error
                (or_default (message error)
                   "An unexpected error occurred during product detection.")).
Proof.
  intros Hgen Hne Hparse Hget.
  unfold detectProducts. rewrite Hgen. cbn [bind ret text].
  destruct answer as [| c rest]; [contradiction |].
  rewrite Hparse. cbn [bind ret]. rewrite Hget. reflexivity.
Qed.

(** X15.  When the answer holds an array of products, the call succeeds
    exactly when every element can be mapped, and then it returns the
    mapped elements one for one, in the order of the answer. *)
Theorem detectProducts_maps_in_order (h : Host) (image : option string)
    (answer : string) (result : value) (elems : list value)
    (r : DetectionResponse value) :
  generateContent h image = ret {| text := Some answer |} ->
  answer <> "" ->
  JSON_parse h answer = ret result ->
  get result "products" = ret (VArray elems) ->
  detectProducts h image = ret r
  <-> Forall2 (fun p mapped => map_product h p = ret mapped) elems (products r).
Proof.
  intros Hgen Hne Hparse Hget.
  rewrite (detectProducts_on_array h image answer result elems Hgen Hne Hparse Hget).
  rewrite <- mapM_Forall2.
  destruct (mapM (map_product h) elems) as [e | ps]; cbn.
  - split; [| discriminate].
    destruct (message_includes e "API_KEY"); discriminate.
  - destruct r as [ps']. cbn. split; intros H; injection H as ->; reflexivity.
Qed.

Lemma detectProducts_maps_in_order_witness :
  detectProducts (host_answering (Some shoe_text) shoe_response) (Some "AAAA")
  = ret {| products :=
             [VObject [ ("id", VString "p1"); ("name", VString "Air Max 90");
                        ("category", VString "Shoe");
                        ("box", VObject [ ("ymin", VNumber 100); ("xmin", VNumber 200);
                                          ("ymax", VNumber 400); ("xmax", VNumber 600) ]);
                        ("confidence", VNumber 0.9);
                        ("shoppingLink",
                         VString "https://www.nike.com/w?q=Air%20Max%2090") ]] |}.
Proof.
  apply (proj2 (detectProducts_maps_in_order
                  (host_answering (Some shoe_text) shoe_response) (Some "AAAA")
                  shoe_text shoe_response [shoe_object] _
                  eq_refl ltac:(discriminate) eq_refl eq_refl)).
  constructor; [reflexivity | constructor].
Defined.

(** X16.  One product that cannot be mapped fails the whole call: the
    detections of the other products of the frame are lost with it. *)
Theorem one_bad_product_fails_the_call (h : Host) (image : option string)
    (answer : string) (result : value) (elems : list value) (p : value) (e : exn) :
  generateContent h image = ret {| text := Some answer |} ->
  answer <> "" ->
  JSON_parse h answer = ret result ->
  get result "products" = ret (VArray elems) ->
  In p elems ->
  map_product h p = throw e ->
  exists c msg, detectProducts h image = throw_new_Error (String c msg).
Proof.
  intros Hgen Hne Hparse Hget Hin Hbad.
  rewrite (detectProducts_on_array h image answer result elems Hgen Hne Hparse Hget).
  destruct (mapM_fails (map_product h) elems p e Hin Hbad) as [e' ->].
  cbn. destruct (message_includes e' "API_KEY"); [eauto |].
  destruct (or_default_text (message e') "A"
              "n unexpected error occurred during product detection.") as [c [msg Hmsg]].
  exists c, msg. now rewrite Hmsg.
Qed.

Lemma one_bad_product_fails_the_call_witness :
  exists c msg,
    detectProducts
      (host_answering (Some "[shoe, bare]")
         (VObject [("products", VArray [shoe_object; VObject []])]))
      (Some "AAAA")
    = throw_new_Error (String c msg).
Proof.
  apply (one_bad_product_fails_the_call
           (host_answering (Some "[shoe, bare]")
              (VObject [("products", VArray [shoe_object; VObject []])]))
           (Some "AAAA") "[shoe, bare]"
           (VObject [("products", VArray [shoe_object; VObject []])])
           [shoe_object; VObject []] (VObject [])
           (Error (Some "Cannot read properties of undefined (reading 'toLowerCase')")));
    [reflexivity | discriminate | reflexivity | reflexivity | right; left; reflexivity
    | reflexivity].
Defined.

(** X17.  Every failure of the call carries a non-empty message: the
    API-key message when the message of the underlying error mentions
    API_KEY, that message itself when it has one, the default otherwise.
    The caller's own fallback text is never needed for it. *)
Theorem detectProducts_failure_has_message (h : Host) (image : option string)
    (e : exn) :
  detectProducts h image = throw e ->
  exists c msg, message e = Some (String c msg) /\
    or_default (message e) VideoPlayer.analysis_failed_message = String c msg.
Proof.
  unfold detectProducts.
  match goal with |- try_catch ?body _ = _ -> _ => destruct body as [e0 | r] end;
    cbn [try_catch]; [| discriminate].
  destruct (message_includes e0 "API_KEY").
  - intros H. injection H as <-. eexists _, _. split; reflexivity.
  - destruct (or_default_text (message e0) "A"
                "n unexpected error occurred during product detection.") as [c [msg Hmsg]].
    rewrite Hmsg. intros H. injection H as <-. exists c, msg. split; reflexivity.
Qed.

Lemma detectProducts_failure_has_message_witness :
  exists c msg,
    message (Error (Some "The AI model returned an empty response."))
    = Some (String c msg) /\
    or_default (message (Error (Some "The AI model returned an empty response.")))
               VideoPlayer.analysis_failed_message = String c msg.
Proof.
  apply (detectProducts_failure_has_message (host_answering None VNull) (Some "AAAA")).
  reflexivity.
Defined.

(** X18.  A failure of the service or of the parser whose message mentions
    API_KEY is reported as an invalid or missing key; any other message
    of theirs is passed on unchanged, and an error without message gets
    the default text. *)
Theorem service_errors_are_translated (h : Host) (image : option string) (e : exn) :
  generateContent h image = throw e
  \/ (exists answer c, generateContent h image = ret {| text := Some (String c answer) |}
                       /\ JSON_parse h (String c answer) = throw e) ->
  detectProducts h image
  = throw_new_Error
      (if message_includes e "API_KEY"
       then "Invalid or missing API Key. Please check your configuration."
       else or_default (message e)
              "An unexpected error occurred during product detection.").
Proof.
  unfold detectProducts.
  intros [Hgen | [answer [c [Hgen Hparse]]]]; rewrite Hgen; cbn [bind ret text throw];
    [| rewrite Hparse]; cbn; destruct (message_includes e "API_KEY"); reflexivity.
Qed.

Lemma service_errors_are_translated_witness :
  detectProducts
    {| generateContent := fun _ => throw_new_Error "API_KEY environment variable is not set";
       JSON_parse := fun _ => ret VNull;
       Number_toString := integer_numeral |}
    (Some "AAAA")
  = throw_new_Error "Invalid or missing API Key. Please check your configuration.".
Proof.
  apply (service_errors_are_translated
           {| generateContent :=
                fun _ => throw_new_Error "API_KEY environment variable is not set";
              JSON_parse := fun _ => ret VNull;
              Number_toString := integer_numeral |}
           (Some "AAAA")
           (Error (Some "API_KEY environment variable is not set"))).
  left. reflexivity.
Defined.

(** ** More on the mapper *)

Lemma get_index_defined (box : value) (i : nat) :
  box <> VNull -> box <> VUndefined -> exists x, get_index box i = ret x.
Proof.
  intros Hnull Hundef. destruct box; cbn; eauto; contradiction.
Qed.

Lemma get_index_fails (box : value) (i : nat) (x : value) :
  get_index box i = ret x -> box <> VNull /\ box <> VUndefined.
Proof.
  destruct box; cbn; intros H; try discriminate; split; discriminate.
Qed.

(** A name with an unpaired surrogate cannot be encoded: the mapper
    raises a [URIError] on a product that is well-formed otherwise. *)
Example lone_surrogate_name_raises (h : Host) :
  has_lone_surrogate lone_surrogate = true /\
  map_product h (VObject [ ("name", VString lone_surrogate);
                           ("category", VString "shoe");
                           ("box", VArray [VNumber 100; VNumber 200;
                                           VNumber 400; VNumber 600]) ])
  = throw_new_Error "URI malformed".
Proof. split; reflexivity. Qed.

(** X19.  The mapper succeeds on exactly these products: objects whose
    category is a string, whose box is present and not null, and whose
    name can be converted to a string that holds no unpaired surrogate.
    Anything else (a product that is no object, a missing or non-string
    category, a missing box, a name that is an object with its own
    toString, a name that cannot be encoded) raises. *)
Theorem map_product_succeeds_iff (h : Host) (p : value) :
  (exists mapped, map_product h p = ret mapped)
  <-> exists props category box,
        p = VObject props /\
        lookup "category" props = Some (VString category) /\
        lookup "box" props = Some box /\ box <> VNull /\ box <> VUndefined /\
        exists name_string,
          ToString (Number_toString h)
            match lookup "name" props with Some x => x | None => VUndefined end
          = ret name_string /\
          has_lone_surrogate name_string = false.
Proof.
  split.
  - intros [mapped H]. unfold map_product in H.
    destruct p as [| | b | q | s | elems | props]; try discriminate H.
    cbn [get bind ret] in H.
    destruct (lookup "category" props) as [[| | b | q | category | elems | props'] |]
      eqn:Hc; try discriminate H.
    cbn [call_toLowerCase bind ret] in H.
    destruct (lookup "box" props) as [box |] eqn:Hb; [| discriminate H].
    destruct (get_index box 0) as [e | y0] eqn:H0; [discriminate H |].
    destruct (get_index_fails box 0 y0 H0) as [Hnull Hundef].
    cbn [bind] in H.
    destruct (get_index box 1); [discriminate H |]. cbn [bind] in H.
    destruct (get_index box 2); [discriminate H |]. cbn [bind] in H.
    destruct (get_index box 3); [discriminate H |]. cbn [bind] in H.
    destruct (ToString (Number_toString h)
                match lookup "name" props with Some x => x | None => VUndefined end)
      as [e | name_string] eqn:Hn; [discriminate H |].
    cbn [bind] in H. unfold call_encodeURIComponent in H.
    destruct (has_lone_surrogate name_string) eqn:Hwf; [discriminate H |].
    exists props, category, box.
    split; [reflexivity |]. split; [exact Hc |]. split; [exact Hb |].
    split; [exact Hnull |]. split; [exact Hundef |]. now exists name_string.
  - intros [props [category [box [-> [Hc [Hb [Hnull [Hundef [name_string [Hn Hwf]]]]]]]]]].
    unfold map_product. cbn [get bind ret]. rewrite Hc, Hb. cbn [call_toLowerCase bind ret].
    destruct (get_index_defined box 0 Hnull Hundef) as [y0 ->].
    destruct (get_index_defined box 1 Hnull Hundef) as [x0 ->].
    destruct (get_index_defined box 2 Hnull Hundef) as [y1 ->].
    destruct (get_index_defined box 3 Hnull Hundef) as [x1 ->].
    cbn [bind ret]. rewrite Hn. cbn [bind ret].
    unfold call_encodeURIComponent. rewrite Hwf. cbn [bind ret]. eauto.
Qed.

Lemma map_product_keeps_fields (h : Host) (props props' : list (string * value)) :
  map_product h (VObject props) = ret (VObject props') ->
  (forall key, key <> "box" -> key <> "shoppingLink" ->
               lookup key props' = lookup key props) /\
  (exists link, lookup "shoppingLink" props' = Some (VString link)) /\
  (exists y0 x0 y1 x1,
      lookup "box" props'
      = Some (VObject [("ymin", y0); ("xmin", x0); ("ymax", y1); ("xmax", x1)])).
Proof.
  intros H. unfold map_product in H. cbn [get bind ret] in H.
  destruct (match lookup "category" props with Some x => x | None => VUndefined end)
    as [| | b | q | category | elems | props'']; try discriminate H.
  cbn [call_toLowerCase bind ret] in H.
  destruct (get_index _ 0) as [e | y0]; [discriminate H |]. cbn [bind] in H.
  destruct (get_index _ 1) as [e | x0]; [discriminate H |]. cbn [bind] in H.
  destruct (get_index _ 2) as [e | y1]; [discriminate H |]. cbn [bind] in H.
  destruct (get_index _ 3) as [e | x1]; [discriminate H |]. cbn [bind] in H.
  destruct (ToString _ _) as [e | name_string]; [discriminate H |].
  cbn [bind] in H.
  destruct (call_encodeURIComponent name_string) as [e | encoded_name];
    [discriminate H |].
  cbn [bind ret own_props] in H. injection H as <-.
  split; [| split].
  - intros key Hbox Hlink.
    rewrite lookup_set_prop_other by congruence.
    now rewrite lookup_set_prop_other by congruence.
  - eexists. apply lookup_set_prop.
  - exists y0, x0, y1, x1.
    rewrite lookup_set_prop_other by discriminate. apply lookup_set_prop.
Qed.

(** X20.  The mapped product is the product of the answer with two
    fields set: the box, rebuilt with the names ymin, xmin, ymax, xmax,
    and the shopping link, a string.  Every other field (id, name,
    category, confidence, and any the service adds) is passed on
    unchanged. *)
Theorem map_product_keeps_other_fields (h : Host) (p mapped : value) :
  map_product h p = ret mapped ->
  exists props props',
    p = VObject props /\ mapped = VObject props' /\
    (forall key, key <> "box" -> key <> "shoppingLink" ->
                 lookup key props' = lookup key props) /\
    (exists link, lookup "shoppingLink" props' = Some (VString link)) /\
    (exists y0 x0 y1 x1,
        lookup "box" props'
        = Some (VObject [("ymin", y0); ("xmin", x0); ("ymax", y1); ("xmax", x1)])).
Proof.
  intros H.
  assert (Hshape : exists props props', p = VObject props /\ mapped = VObject props').
  { unfold map_product in H.
    destruct p as [| | b | q | s | elems | props]; try discriminate H.
    cbn [get bind ret] in H.
    destruct (match lookup "category" props with Some x => x | None => VUndefined end)
      as [| | b | q | category | elems | props'']; try discriminate H.
    cbn [call_toLowerCase bind ret] in H.
    destruct (get_index _ 0); [discriminate H |]. cbn [bind] in H.
    destruct (get_index _ 1); [discriminate H |]. cbn [bind] in H.
    destruct (get_index _ 2); [discriminate H |]. cbn [bind] in H.
    destruct (get_index _ 3); [discriminate H |]. cbn [bind] in H.
    destruct (ToString _ _); [discriminate H |].
    cbn [bind] in H.
    destruct (call_encodeURIComponent _); [discriminate H |].
    cbn [bind ret] in H. injection H as <-. eauto. }
  destruct Hshape as [props [props' [-> ->]]].
  exists props, props'. split; [reflexivity |]. split; [reflexivity |].
  now apply (map_product_keeps_fields h).
Qed.

Lemma map_product_keeps_other_fields_witness :
  exists props props',
    shoe_object = VObject props /\
    VObject [ ("id", VString "p1"); ("name", VString "Air Max 90");
              ("category", VString "Shoe");
              ("box", VObject [ ("ymin", VNumber 100); ("xmin", VNumber 200);
                                ("ymax", VNumber 400); ("xmax", VNumber 600) ]);
              ("confidence", VNumber 0.9);
              ("shoppingLink", VString "https://www.nike.com/w?q=Air%20Max%2090") ]
    = VObject props' /\
    (forall key, key <> "box" -> key <> "shoppingLink" ->
                 lookup key props' = lookup key props) /\
    (exists link, lookup "shoppingLink" props' = Some (VString link)) /\
    (exists y0 x0 y1 x1,
        lookup "box" props'
        = Some (VObject [("ymin", y0); ("xmin", x0); ("ymax", y1); ("xmax", x1)])).
Proof.
  apply (map_product_keeps_other_fields (host_answering (Some shoe_text) shoe_response)
           shoe_object).
  reflexivity.
Defined.

Lemma lower_case_is_no_mixed_case (s name : string) :
  toLowerCase name <> name -> String.eqb (toLowerCase s) name = false.
Proof.
  intros Hmixed. apply String.eqb_neq. intros Heq. apply Hmixed.
  rewrite <- Heq. apply toLowerCase_idempotent.
Qed.

(** X21.  The base URL chosen for a category, in full.  Its lower-case
    form decides: fashion, shoe and electronics get their own site;
    constructor and __proto__ get the member the table inherits (the
    other inherited names hold a capital letter, which no lower-case
    form does); every other category, default included, gets the default
    search URL. *)
Theorem category_base_url (category : string) :
  let key := toLowerCase category in
  base_url_for key
  = if String.eqb key "fashion" then Some (Own "https://www.amazon.com/s?k=")
    else if String.eqb key "shoe" then Some (Own "https://www.nike.com/w?q=")
    else if String.eqb key "electronics"
         then Some (Own "https://www.bestbuy.com/site/searchpage.jsp?st=")
    else if String.eqb key "constructor" || String.eqb key "__proto__"
         then Some (Inherited key)
    else Some (Own "https://www.google.com/search?q=buy+").
Proof.
  intros key. unfold base_url_for, SEARCH_BASE_URLS_get, SEARCH_BASE_URLS, Object_prototype.
  cbn [lookup existsb].
  rewrite (String.eqb_sym "fashion" key), (String.eqb_sym "shoe" key),
          (String.eqb_sym "electronics" key), (String.eqb_sym "default" key).
  subst key.
  rewrite !(lower_case_is_no_mixed_case category "hasOwnProperty") by discriminate.
  rewrite !(lower_case_is_no_mixed_case category "isPrototypeOf") by discriminate.
  rewrite !(lower_case_is_no_mixed_case category "propertyIsEnumerable") by discriminate.
  rewrite !(lower_case_is_no_mixed_case category "toLocaleString") by discriminate.
  rewrite !(lower_case_is_no_mixed_case category "toString") by discriminate.
  rewrite !(lower_case_is_no_mixed_case category "valueOf") by discriminate.
  rewrite !(lower_case_is_no_mixed_case category "__defineGetter__") by discriminate.
  rewrite !(lower_case_is_no_mixed_case category "__defineSetter__") by discriminate.
  rewrite !(lower_case_is_no_mixed_case category "__lookupGetter__") by discriminate.
  rewrite !(lower_case_is_no_mixed_case category "__lookupSetter__") by discriminate.
  destruct (String.eqb (toLowerCase category) "fashion"); [reflexivity |].
  destruct (String.eqb (toLowerCase category) "shoe"); [reflexivity |].
  destruct (String.eqb (toLowerCase category) "electronics"); [reflexivity |].
  destruct (String.eqb (toLowerCase category) "default") eqn:Hdefault;
    [apply String.eqb_eq in Hdefault; rewrite Hdefault; reflexivity |].
  destruct (String.eqb (toLowerCase category) "constructor"); [reflexivity |].
  destruct (String.eqb (toLowerCase category) "__proto__"); reflexivity.
Qed.

(** X22.  A product with a string category, an array box and a string
    name that holds no unpaired surrogate is mapped to a product whose
    link is the base URL of the category followed by the encoded name,
    and whose box names the coordinates by position: ymin, xmin, ymax,
    xmax. *)
Theorem mapped_link_and_box (h : Host) (props : list (string * value))
    (category name : string) (coordinates : list value) :
  lookup "category" props = Some (VString category) ->
  lookup "box" props = Some (VArray coordinates) ->
  lookup "name" props = Some (VString name) ->
  has_lone_surrogate name = false ->
  exists props',
    map_product h (VObject props) = ret (VObject props') /\
    lookup "shoppingLink" props'
    = Some (VString (entry_to_string (base_url_for (toLowerCase category))
                       ++ encodeURIComponent name)) /\
    lookup "box" props'
    = Some (VObject [ ("ymin", nth 0 coordinates VUndefined);
                      ("xmin", nth 1 coordinates VUndefined);
                      ("ymax", nth 2 coordinates VUndefined);
                      ("xmax", nth 3 coordinates VUndefined) ]).
Proof. apply map_product_link. Qed.

Lemma mapped_link_and_box_witness :
  exists props',
    map_product (host_answering (Some shoe_text) shoe_response) shoe_object
    = ret (VObject props') /\
    lookup "shoppingLink" props'
    = Some (VString "https://www.nike.com/w?q=Air%20Max%2090") /\
    lookup "box" props'
    = Some (VObject [ ("ymin", VNumber 100); ("xmin", VNumber 200);
                      ("ymax", VNumber 400); ("xmax", VNumber 600) ]).
Proof.
  apply (mapped_link_and_box (host_answering (Some shoe_text) shoe_response)
           _ "Shoe" "Air Max 90"
           [VNumber 100; VNumber 200; VNumber 400; VNumber 600]);
    reflexivity.
Defined.

(** X23.  A product that has the five fields of the answer schema with
    their types (strings for id, name and category, a number for the
    confidence, four numbers for the box), its name holding no unpaired
    surrogate, is mapped to an object that reads as a [DetectedProduct]:
    the same id, name, category and confidence, the box with its
    coordinates in the order ymin, xmin, ymax, xmax, and the link. *)
Theorem conforming_product_is_typed (h : Host) (props : list (string * value))
    (i n c : string) (conf y0 x0 y1 x1 : float) :
  lookup "id" props = Some (VString i) ->
  lookup "name" props = Some (VString n) ->
  has_lone_surrogate n = false ->
  lookup "category" props = Some (VString c) ->
  lookup "confidence" props = Some (VNumber conf) ->
  lookup "box" props = Some (VArray [VNumber y0; VNumber x0; VNumber y1; VNumber x1]) ->
  exists mapped,
    map_product h (VObject props) = ret mapped /\
    asDetectedProduct mapped
    = Some {| id := i; name := n; category := c; confidence := conf;
              box := {| ymin := y0; xmin := x0; ymax := y1; xmax := x1 |};
              shoppingLink := entry_to_string (base_url_for (toLowerCase c))
                                ++ encodeURIComponent n |}.
Proof.
  intros Hi Hn Hwf Hc Hconf Hb.
  destruct (map_product_link h props c n _ Hc Hb Hn Hwf) as [props' [Hmap [Hlink Hbox]]].
  exists (VObject props'). split; [exact Hmap |].
  destruct (map_product_keeps_fields h props props' Hmap) as [Hkeep _].
  unfold asDetectedProduct, string_field, number_field, asBoundingBox.
  rewrite !Hkeep by discriminate. rewrite Hi, Hn, Hc, Hconf, Hbox, Hlink.
  reflexivity.
Qed.

Lemma conforming_product_is_typed_witness :
  exists mapped,
    map_product (host_answering (Some shoe_text) shoe_response) shoe_object = ret mapped /\
    asDetectedProduct mapped = Some sample_product.
Proof.
  apply (conforming_product_is_typed (host_answering (Some shoe_text) shoe_response)
           _ "p1" "Air Max 90" "Shoe" 0.9%float 100%float 200%float 400%float 600%float);
    reflexivity.
Defined.
